(** * SampleClipDrawMatch: the clip/draw geometry-matching slide

    A shallow embedding of [samplecode/SampleClipDrawMatch.cpp] and the
    properties its description states about it.

    The slide draws a big red rectangle through a clip built from a chosen
    geometry and draws the same geometry in black; an animated fractional
    offset moves the pair, and key presses select the geometry and the order
    of the two passes.

    Conventions of the embedding:
    - [SkScalar] is the IEEE-754 binary32 format ([float] in the source),
      carried by the Standard Library's [spec_float] with 24 bits of
      precision; every arithmetic step rounds as the hardware does.
    - [SkMSec] is an unsigned 32-bit integer, carried by [Z] with the
      wrap-around written out.
    - the canvas is a state: the stack of saved matrix/clip records and the
      chronological log of the calls made on it.  Functions that take a
      [SkCanvas*] are state transformers over it. *)

From Stdlib Require Import ZArith List Bool Lia String Ascii.
From Stdlib Require Import Floats.SpecFloat.
Import ListNotations.
Open Scope Z_scope.

(* ================================================================= *)
(** ** Scalars *)

Module Scalar.

Definition prec : Z := 24.
Definition emax : Z := 128.

(** Modelled from the spec: the type [SkScalar] is declared outside this
    file; the slide's own constants are [float], and the description speaks
    of fractional offsets and sub-pixel positions.  It is taken as binary32
    with round-to-nearest-even arithmetic. *)
Definition SkScalar : Type := spec_float.

Definition add : SkScalar -> SkScalar -> SkScalar := SFadd prec emax.
Definition sub : SkScalar -> SkScalar -> SkScalar := SFsub prec emax.
Definition mul : SkScalar -> SkScalar -> SkScalar := SFmul prec emax.
Definition div : SkScalar -> SkScalar -> SkScalar := SFdiv prec emax.
Definition ltb : SkScalar -> SkScalar -> bool := SFltb.

(** The binary32 value nearest to [m * 2^e]. *)
Definition dyadic (m e : Z) : SkScalar := binary_normalize prec emax m e false.

(** [SkIntToScalar]: the conversion of an [int] to a scalar. *)
Definition SkIntToScalar (n : Z) : SkScalar := dyadic n 0.

Definition zero : SkScalar := S754_zero false.
Definition one : SkScalar := Eval cbv in dyadic 1 0.

Definition min (a b : SkScalar) : SkScalar := if ltb b a then b else a.
Definition max (a b : SkScalar) : SkScalar := if ltb a b then b else a.

End Scalar.

Import Scalar.

(* ================================================================= *)
(** ** Points, rectangles, rounded rectangles, paths *)

(** Modelled from the spec: [SkPoint], the 2D translation vector of the
    description, declared outside this file. *)
Record SkPoint : Type := mkPoint { fX : SkScalar; fY : SkScalar }.

(** Modelled from the spec: [SkRect], declared outside this file, a
    rectangle given by its four edges; [offset] translates it. *)
Record SkRect : Type := MakeLTRB
  { fLeft : SkScalar; fTop : SkScalar; fRight : SkScalar; fBottom : SkScalar }.

Module Rect.

Definition MakeWH (w h : SkScalar) : SkRect := MakeLTRB zero zero w h.

(** [SkRect::offset(dx, dy)]: adds [dx] to the horizontal and [dy] to the
    vertical edges. *)
Definition offset (dx dy : SkScalar) (r : SkRect) : SkRect :=
  MakeLTRB (add (fLeft r) dx) (add (fTop r) dy)
           (add (fRight r) dx) (add (fBottom r) dy).

(** [SkRect::offset(const SkPoint&)]. *)
Definition offsetPt (d : SkPoint) (r : SkRect) : SkRect :=
  offset (fX d) (fY d) r.

End Rect.

(** Modelled from the spec: [SkRRect], declared outside this file.  The
    description has two rounded rectangles, the rounded-rectangle proper and
    the circle, "rounded-rectangle with oval bounds".  A rounded rectangle
    is kept as its bounds and the way its corners were requested: [setRectXY]
    gives every corner the same two radii, [setOval] makes the radii half
    the sides of the rectangle. *)
Inductive RRectCorners : Type :=
| kSimple_Corners (xRad yRad : SkScalar)
| kOval_Corners.

Record SkRRect : Type := mkRRect { rrRect : SkRect; rrCorners : RRectCorners }.

Module RRect.

Definition setRectXY (r : SkRect) (xRad yRad : SkScalar) : SkRRect :=
  mkRRect r (kSimple_Corners xRad yRad).

Definition setOval (r : SkRect) : SkRRect := mkRRect r kOval_Corners.

Definition offset (dx dy : SkScalar) (rr : SkRRect) : SkRRect :=
  mkRRect (Rect.offset dx dy (rrRect rr)) (rrCorners rr).

End RRect.

(** Modelled from the spec: [SkPath], declared outside this file; the
    polygons of the description are built from a move, lines and a close. *)
Inductive PathVerb : Type :=
| kMove_Verb (p : SkPoint)
| kLine_Verb (p : SkPoint)
| kClose_Verb.

(** A path is the sequence of its verbs, in the order they were added. *)
Definition SkPath : Type := list PathVerb.

Module Path.

Definition empty : SkPath := [].

Definition moveTo (x y : SkScalar) (p : SkPath) : SkPath :=
  p ++ [kMove_Verb (mkPoint x y)].

Definition lineTo (x y : SkScalar) (p : SkPath) : SkPath :=
  p ++ [kLine_Verb (mkPoint x y)].

Definition close (p : SkPath) : SkPath := p ++ [kClose_Verb].

Definition offsetVerb (dx dy : SkScalar) (v : PathVerb) : PathVerb :=
  match v with
  | kMove_Verb q => kMove_Verb (mkPoint (add (fX q) dx) (add (fY q) dy))
  | kLine_Verb q => kLine_Verb (mkPoint (add (fX q) dx) (add (fY q) dy))
  | kClose_Verb => kClose_Verb
  end.

(** [SkPath::offset(dx, dy)]: translates every point of the path. *)
Definition offset (dx dy : SkScalar) (p : SkPath) : SkPath :=
  map (offsetVerb dx dy) p.

Definition points (p : SkPath) : list SkPoint :=
  flat_map (fun v => match v with
                     | kMove_Verb q | kLine_Verb q => [q]
                     | kClose_Verb => []
                     end) p.

Definition growBounds (r : SkRect) (q : SkPoint) : SkRect :=
  MakeLTRB (Scalar.min (fLeft r) (fX q)) (Scalar.min (fTop r) (fY q))
           (Scalar.max (fRight r) (fX q)) (Scalar.max (fBottom r) (fY q)).

(** [SkPath::getBounds]: the smallest rectangle holding every point of the
    path; the empty rectangle at the origin for a path without points. *)
Definition getBounds (p : SkPath) : SkRect :=
  match points p with
  | [] => MakeLTRB zero zero zero zero
  | q :: qs => fold_left growBounds qs (MakeLTRB (fX q) (fY q) (fX q) (fY q))
  end.

End Path.

(* ================================================================= *)
(** ** The geometries of the slide *)

(** The possible geometric combinations to test. *)
Inductive Geometry : Type :=
| kRect_Geometry
| kRRect_Geometry
| kCircle_Geometry
| kConvexPath_Geometry
| kConcavePath_Geometry
| kRectAndRect_Geometry
| kRectAndRRect_Geometry
| kRectAndConvex_Geometry
| kRectAndConcave_Geometry.

(** The basic rect used is [kMin,kMin]..[kMax,kMax]. *)
Definition kMin : SkScalar := Eval cbv in dyadic 201 (-1).   (* 100.5f *)
Definition kMid : SkScalar := Eval cbv in dyadic 200 0.      (* 200.0f *)
Definition kMax : SkScalar := Eval cbv in dyadic 599 (-1).   (* 299.5f *)

Definition f105 : SkScalar := Eval cbv in dyadic 105 0.      (* 105.0f *)
Definition f295 : SkScalar := Eval cbv in dyadic 295 0.      (* 295.0f *)
Definition f10 : SkScalar := Eval cbv in dyadic 10 0.        (* 10 *)
Definition fNeg100 : SkScalar := Eval cbv in dyadic (-100) 0. (* -100.0f *)

Definition create_rect (offset : SkPoint) : SkRect :=
  let r := MakeLTRB kMin kMin kMax kMax in
  Rect.offsetPt offset r.

Definition create_rrect (offset : SkPoint) : SkRRect :=
  RRect.setRectXY (create_rect offset) f10 f10.

Definition create_circle (offset : SkPoint) : SkRRect :=
  RRect.setOval (create_rect offset).

Definition create_convex_path (offset : SkPoint) : SkPath :=
  let convexPath := Path.empty in
  let convexPath := Path.moveTo kMin kMin convexPath in
  let convexPath := Path.lineTo kMax kMax convexPath in
  let convexPath := Path.lineTo kMin kMax convexPath in
  let convexPath := Path.close convexPath in
  Path.offset (fX offset) (fY offset) convexPath.

Definition create_concave_path (offset : SkPoint) : SkPath :=
  let concavePath := Path.empty in
  let concavePath := Path.moveTo kMin kMin concavePath in
  let concavePath := Path.lineTo kMid f105 concavePath in
  let concavePath := Path.lineTo kMax kMin concavePath in
  let concavePath := Path.lineTo f295 kMid concavePath in
  let concavePath := Path.lineTo kMax kMax concavePath in
  let concavePath := Path.lineTo kMid f295 concavePath in
  let concavePath := Path.lineTo kMin kMax concavePath in
  let concavePath := Path.lineTo f105 kMid concavePath in
  let concavePath := Path.close concavePath in
  Path.offset (fX offset) (fY offset) concavePath.

(* ================================================================= *)
(** ** The canvas *)

(** Modelled from the spec: [SkRegion::Op], declared outside this file;
    the slide uses the replace and the intersect op of the description. *)
Inductive Op : Type :=
| kDifference_Op
| kIntersect_Op
| kUnion_Op
| kXOR_Op
| kReverseDifference_Op
| kReplace_Op.

Inductive Shape : Type :=
| RectShape (r : SkRect)
| RRectShape (rr : SkRRect)
| PathShape (p : SkPath).

Definition shapeBounds (s : Shape) : SkRect :=
  match s with
  | RectShape r => r
  | RRectShape rr => rrRect rr
  | PathShape p => Path.getBounds p
  end.

Definition shapeOffset (d : SkPoint) (s : Shape) : Shape :=
  match s with
  | RectShape r => RectShape (Rect.offsetPt d r)
  | RRectShape rr => RRectShape (RRect.offset (fX d) (fY d) rr)
  | PathShape p => PathShape (Path.offset (fX d) (fY d) p)
  end.

(** Modelled from the spec: the clip of [SkCanvas], "clip-by-shape with
    replace/intersect semantics and an anti-alias flag".  One clip call is
    kept as the shape, how it combines with the clip so far, and whether its
    edge is anti-aliased. *)
Record ClipElement : Type := mkClip
  { ceShape : Shape; ceOp : Op; ceAA : bool }.

(** The clip is the sequence of elements that make it up, oldest first.  A
    replace starts the sequence afresh; any other op extends it. *)
Definition applyClip (e : ClipElement) (clip : list ClipElement)
  : list ClipElement :=
  match ceOp e with
  | kReplace_Op => [e]
  | _ => clip ++ [e]
  end.

(** Modelled from the spec: the "clip+transform state" that [save] copies
    and [restore] brings back.  The matrix is kept as its entries; the slide
    never changes it. *)
Record MCRec : Type := mkMCRec
  { fMatrix : list SkScalar; fClip : list ClipElement }.

Definition SkColor : Type := Z.
Definition SK_ColorBLACK : SkColor := 0xFF000000.
Definition SK_ColorRED : SkColor := 0xFFFF0000.

(** Modelled from the spec: [SkPaint], declared outside this file, "a solid
    color and anti-alias flag". *)
Record SkPaint : Type := mkPaint { fColor : SkColor; fAntiAlias : bool }.

Module Paint.
(** A default-constructed paint: opaque black, no anti-aliasing. *)
Definition default : SkPaint := mkPaint SK_ColorBLACK false.
Definition setColor (c : SkColor) (p : SkPaint) : SkPaint :=
  mkPaint c (fAntiAlias p).
Definition setAntiAlias (aa : bool) (p : SkPaint) : SkPaint :=
  mkPaint (fColor p) aa.
End Paint.

(** Modelled from the spec: [SkCanvas], declared outside this file.  The
    description gives the render target as exposing "save/restore of
    clip+transform state, clip-by-shape with replace/intersect semantics and
    an anti-alias flag, and fill/draw-shape primitives with a solid color and
    anti-alias flag".  The canvas keeps the record in force, the stack of
    saved records and the log of the calls made on it; a draw is logged with
    the matrix/clip record in force when it was made. *)
Inductive CanvasCall : Type :=
| CallSave
| CallClip (e : ClipElement)
| CallDraw (mc : MCRec) (s : Shape) (p : SkPaint)
| CallRestoreToCount (count : Z).

Record SkCanvas : Type := mkCanvas
  { fDeviceSize : Z * Z;          (* width, height *)
    fMCRec : MCRec;              (* the record in force *)
    fSaved : list MCRec;         (* the saved ones, most recent first *)
    fCalls : list CanvasCall }.  (* oldest first *)

(** Code that works on a [SkCanvas*]: a result and the canvas afterwards. *)
Definition CanvasM (A : Type) : Type := SkCanvas -> A * SkCanvas.

Definition ret {A} (a : A) : CanvasM A := fun c => (a, c).
Definition bind {A B} (m : CanvasM A) (k : A -> CanvasM B) : CanvasM B :=
  fun c => let (a, c') := m c in k a c'.

Notation "x <- m ;; k" := (bind m (fun x => k))
  (at level 61, m at next level, right associativity).
Notation "m ;;; k" := (bind m (fun _ => k))
  (at level 61, right associativity).

Definition exec {A} (m : CanvasM A) (c : SkCanvas) : SkCanvas := snd (m c).

Module Canvas.

Definition logCall (call : CanvasCall) (c : SkCanvas) : SkCanvas :=
  mkCanvas (fDeviceSize c) (fMCRec c) (fSaved c) (fCalls c ++ [call]).

Definition getSaveCount (c : SkCanvas) : Z :=
  Z.of_nat (S (List.length (fSaved c))).

(** Modelled from the spec: [SkCanvas::save], defined outside this file,
    the "acquire" of the clip+transform state.  It pushes a copy of the
    record in force and returns the save count from before the call. *)
Definition save : CanvasM Z := fun c =>
  (getSaveCount c,
   logCall CallSave
     (mkCanvas (fDeviceSize c) (fMCRec c) (fMCRec c :: fSaved c) (fCalls c))).

(** Modelled from the spec: one [SkCanvas::restore], defined outside this
    file.  It brings back the most recently saved record and does nothing
    when there is none. *)
Definition internalRestore (c : SkCanvas) : SkCanvas :=
  match fSaved c with
  | [] => c
  | mc :: rest => mkCanvas (fDeviceSize c) mc rest (fCalls c)
  end.

(** Modelled from the spec: [SkCanvas::restoreToCount], defined outside
    this file, the "release" of the clip+transform state.  It restores while
    the save count is above [count]; a count below 1 is taken as 1. *)
Definition restoreToCount (count : Z) : CanvasM unit := fun c =>
  let target := Z.max count 1 in
  (tt, logCall (CallRestoreToCount count)
         (Nat.iter (Z.to_nat (getSaveCount c - target)) internalRestore c)).

(** Modelled from the spec: the clip calls of [SkCanvas], defined outside
    this file; they change the clip of the record in force. *)
Definition clip (e : ClipElement) : CanvasM unit := fun c =>
  (tt, logCall (CallClip e)
         (mkCanvas (fDeviceSize c)
            (mkMCRec (fMatrix (fMCRec c)) (applyClip e (fClip (fMCRec c))))
            (fSaved c) (fCalls c))).

Definition clipRect (r : SkRect) (op : Op) (doAA : bool) : CanvasM unit :=
  clip (mkClip (RectShape r) op doAA).
Definition clipRRect (rr : SkRRect) (op : Op) (doAA : bool) : CanvasM unit :=
  clip (mkClip (RRectShape rr) op doAA).
Definition clipPath (p : SkPath) (op : Op) (doAA : bool) : CanvasM unit :=
  clip (mkClip (PathShape p) op doAA).

(** Modelled from the spec: the draw calls of [SkCanvas], defined outside
    this file; they leave the matrix/clip state alone. *)
Definition draw (s : Shape) (p : SkPaint) : CanvasM unit := fun c =>
  (tt, logCall (CallDraw (fMCRec c) s p) c).

Definition drawRect (r : SkRect) (p : SkPaint) : CanvasM unit :=
  draw (RectShape r) p.
Definition drawRRect (rr : SkRRect) (p : SkPaint) : CanvasM unit :=
  draw (RRectShape rr) p.
Definition drawPath (path : SkPath) (p : SkPaint) : CanvasM unit :=
  draw (PathShape path) p.

Definition getDeviceSize : CanvasM (Z * Z) := fun c => (fDeviceSize c, c).

End Canvas.

(* ================================================================= *)
(** ** The two passes *)

Definition draw_clipped_geom (offset : SkPoint) (geom : Geometry) (useAA : bool)
  : CanvasM unit :=
  count <- Canvas.save ;;
  match geom with
  | kRect_Geometry =>
      Canvas.clipRect (create_rect offset) kReplace_Op useAA
  | kRRect_Geometry =>
      Canvas.clipRRect (create_rrect offset) kReplace_Op useAA
  | kCircle_Geometry =>
      Canvas.clipRRect (create_circle offset) kReplace_Op useAA
  | kConvexPath_Geometry =>
      Canvas.clipPath (create_convex_path offset) kReplace_Op useAA
  | kConcavePath_Geometry =>
      Canvas.clipPath (create_concave_path offset) kReplace_Op useAA
  | kRectAndRect_Geometry =>
      let r := create_rect offset in
      let r := Rect.offset fNeg100 fNeg100 r in
      Canvas.clipRect r kReplace_Op true ;;;  (* AA here forces shader clips *)
      Canvas.clipRect (create_rect offset) kIntersect_Op useAA
  | kRectAndRRect_Geometry =>
      let r := create_rect offset in
      let r := Rect.offset fNeg100 fNeg100 r in
      Canvas.clipRect r kReplace_Op true ;;;  (* AA here forces shader clips *)
      Canvas.clipRRect (create_rrect offset) kIntersect_Op useAA
  | kRectAndConvex_Geometry =>
      let r := create_rect offset in
      let r := Rect.offset fNeg100 fNeg100 r in
      Canvas.clipRect r kReplace_Op true ;;;  (* AA here forces shader clips *)
      Canvas.clipPath (create_convex_path offset) kIntersect_Op useAA
  | kRectAndConcave_Geometry =>
      let r := create_rect offset in
      let r := Rect.offset fNeg100 fNeg100 r in
      Canvas.clipRect r kReplace_Op true ;;;  (* AA here forces shader clips *)
      Canvas.clipPath (create_concave_path offset) kIntersect_Op useAA
  end ;;;
  size <- Canvas.getDeviceSize ;;
  let bigR := Rect.MakeWH (SkIntToScalar (fst size)) (SkIntToScalar (snd size)) in
  let p := Paint.default in
  let p := Paint.setColor SK_ColorRED p in
  Canvas.drawRect bigR p ;;;
  Canvas.restoreToCount count.

Definition draw_normal_geom (offset : SkPoint) (geom : Geometry) (useAA : bool)
  : CanvasM unit :=
  let p := Paint.default in
  let p := Paint.setAntiAlias useAA p in
  let p := Paint.setColor SK_ColorBLACK p in
  match geom with
  | kRect_Geometry                (* fall thru *)
  | kRectAndRect_Geometry =>
      Canvas.drawRect (create_rect offset) p
  | kRRect_Geometry               (* fall thru *)
  | kRectAndRRect_Geometry =>
      Canvas.drawRRect (create_rrect offset) p
  | kCircle_Geometry =>
      Canvas.drawRRect (create_circle offset) p
  | kConvexPath_Geometry          (* fall thru *)
  | kRectAndConvex_Geometry =>
      Canvas.drawPath (create_convex_path offset) p
  | kConcavePath_Geometry         (* fall thru *)
  | kRectAndConcave_Geometry =>
      Canvas.drawPath (create_concave_path offset) p
  end.

(* ================================================================= *)
(** ** Time and the interpolator *)

(** Modelled from the spec: [SkMSec], declared outside this file, the time
    of the animation clock: milliseconds in an unsigned 32-bit integer. *)
Definition SkMSec : Type := Z.

Definition msecWrap (t : Z) : SkMSec := t mod 2 ^ 32.

(** [l] with the element at index [i] replaced by [v]; [l] itself when
    there is no such index. *)
Fixpoint store {A} (i : nat) (v : A) (l : list A) : list A :=
  match l, i with
  | [], _ => []
  | _ :: l', O => v :: l'
  | x :: l', S i' => x :: store i' v l'
  end.

(** A key frame: a time and the value of every element at that time. *)
Record SkTimeCode : Type := mkTimeCode
  { tcTime : SkMSec; tcValues : list SkScalar }.

Record SkInterpolator : Type := mkInterpolator
  { fElemCount : nat;
    fRepeat : Z;
    fFrames : list SkTimeCode }.

Module Interpolator.

(** Modelled from the spec: the constructor of [SkInterpolator], which is
    defined outside this file: a table of [frameCount] key frames of
    [elemCount] values each, played once unless told otherwise. *)
Definition make (elemCount frameCount : nat) : SkInterpolator :=
  mkInterpolator elemCount 1
    (repeat (mkTimeCode 0 (repeat zero elemCount)) frameCount).

(** Modelled from the spec: [SkInterpolator::setRepeatCount], defined
    outside this file; it sets the "repeat count" of the description. *)
Definition setRepeatCount (repeatCount : Z) (it : SkInterpolator)
  : SkInterpolator :=
  mkInterpolator (fElemCount it) repeatCount (fFrames it).

(** Modelled from the spec: [SkInterpolator::setKeyFrame], defined outside
    this file; a key frame is "a (time, value) pair".  It copies the time and
    the first [fElemCount] values into frame [index]. *)
Definition setKeyFrame (index : nat) (time : SkMSec) (values : list SkScalar)
    (it : SkInterpolator) : SkInterpolator :=
  mkInterpolator (fElemCount it) (fRepeat it)
    (store index (mkTimeCode time (firstn (fElemCount it) values)) (fFrames it)).

(** Linear interpolation from [a] to [b] at the fraction [t]. *)
Definition SkScalarInterp (a b t : SkScalar) : SkScalar :=
  add a (mul (sub b a) t).

Fixpoint interpValues (prev next : list SkScalar) (t : SkScalar)
  : list SkScalar :=
  match prev, next with
  | a :: prev', b :: next' => SkScalarInterp a b t :: interpValues prev' next' t
  | _, _ => []
  end.

(** The values between the key frames [prev] and [next] at [time]. *)
Definition between (prev next : SkTimeCode) (time : SkMSec) : list SkScalar :=
  let t := div (SkIntToScalar (time - tcTime prev))
               (SkIntToScalar (tcTime next - tcTime prev)) in
  interpValues (tcValues prev) (tcValues next) t.

(** The values at [time] on the piecewise-linear curve through [prev] and
    the frames after it, for a [time] not before [prev]. *)
Fixpoint valuesFrom (prev : SkTimeCode) (rest : list SkTimeCode) (time : SkMSec)
  : list SkScalar :=
  match rest with
  | [] => tcValues prev
  | next :: rest' =>
      if time <? tcTime next then between prev next time
      else valuesFrom next rest' time
  end.

(** Modelled from the spec: [SkInterpolator::timeToValues], defined outside
    this file.  The description gives the animation as "a cyclically
    repeating, piecewise-linear 2D offset via five keyframes", "periodic with
    period = sum of keyframe intervals", with a repeat count.  While the
    repetitions last, the value is the one of the piecewise-linear curve at
    the time brought back into the first period.  Outside them the value
    rests: at the first key frame before the animation starts, at the last
    one once the repetitions are over. *)
Definition timeToValues (it : SkInterpolator) (time : SkMSec) : list SkScalar :=
  match fFrames it with
  | [] => []
  | first :: rest =>
      let startTime := tcTime first in
      let endTime := tcTime (last rest first) in
      let totalTime := endTime - startTime in
      if time <? startTime then tcValues first
      else if fRepeat it * totalTime <=? time - startTime
           then tcValues (last rest first)
           else valuesFrom first rest
                  (startTime + (time - startTime) mod totalTime)
  end.

End Interpolator.

(* ================================================================= *)
(** ** The view *)

Record ClipDrawMatchView : Type := mkView
  { fTrans : SkInterpolator;
    fGeom : Geometry;
    fClipFirst : bool }.

(** The constructor.  [GetMSecs k] is what the [k]-th call of
    [SkTime::GetMSecs()] in it returns; the sums are taken in [SkMSec]. *)
Definition ClipDrawMatchView_new (GetMSecs : nat -> SkMSec) : ClipDrawMatchView :=
  let fTrans := Interpolator.make 2 5 in
  let values := [zero; zero] in
  let fTrans := Interpolator.setRepeatCount 999 fTrans in
  let values := store 0%nat zero (store 1%nat zero values) in
  let fTrans :=
    Interpolator.setKeyFrame 0 (msecWrap (GetMSecs 0%nat + 1000)) values fTrans in
  let values := store 1%nat one values in
  let fTrans :=
    Interpolator.setKeyFrame 1 (msecWrap (GetMSecs 1%nat + 2000)) values fTrans in
  let values := store 0%nat one (store 1%nat one values) in
  let fTrans :=
    Interpolator.setKeyFrame 2 (msecWrap (GetMSecs 2%nat + 3000)) values fTrans in
  let values := store 1%nat zero values in
  let fTrans :=
    Interpolator.setKeyFrame 3 (msecWrap (GetMSecs 3%nat + 4000)) values fTrans in
  let values := store 0%nat zero values in
  let fTrans :=
    Interpolator.setKeyFrame 4 (msecWrap (GetMSecs 4%nat + 5000)) values fTrans in
  mkView fTrans kRect_Geometry true.

(** Modelled from the spec: [SkEvent] and the [SampleCode] queries are
    declared outside this file.  The events [onQuery] tells apart are the
    title query ([SampleCode::TitleQ]), a character ([SampleCode::CharQ],
    with the character), and anything else. *)
Inductive SkEvent : Type :=
| TitleEvent
| CharEvent (uni : Z)
| OtherEvent.

(** What [onQuery] does besides changing the fields of the view. *)
Inductive QueryOutcome : Type :=
| TitleAnswered (title : string)  (* SampleCode::TitleR(evt, title); return true *)
| Invalidated                     (* this->inval(NULL); return true *)
| Inherited.                      (* return this->INHERITED::onQuery(evt) *)

Definition setGeom (g : Geometry) (v : ClipDrawMatchView) : ClipDrawMatchView :=
  mkView (fTrans v) g (fClipFirst v).

Definition setClipFirst (b : bool) (v : ClipDrawMatchView) : ClipDrawMatchView :=
  mkView (fTrans v) (fGeom v) b.

Definition onQuery (evt : SkEvent) (v : ClipDrawMatchView)
  : QueryOutcome * ClipDrawMatchView :=
  match evt with
  | TitleEvent => (TitleAnswered "ClipDrawMatch", v)
  | CharEvent uni =>
      match uni with
      | 49 (* '1' *) => (Invalidated, setGeom kRect_Geometry v)
      | 50 (* '2' *) => (Invalidated, setGeom kRRect_Geometry v)
      | 51 (* '3' *) => (Invalidated, setGeom kCircle_Geometry v)
      | 52 (* '4' *) => (Invalidated, setGeom kConvexPath_Geometry v)
      | 53 (* '5' *) => (Invalidated, setGeom kConcavePath_Geometry v)
      | 54 (* '6' *) => (Invalidated, setGeom kRectAndRect_Geometry v)
      | 55 (* '7' *) => (Invalidated, setGeom kRectAndRRect_Geometry v)
      | 56 (* '8' *) => (Invalidated, setGeom kRectAndConvex_Geometry v)
      | 57 (* '9' *) => (Invalidated, setGeom kRectAndConcave_Geometry v)
      | 116 (* 't' *) => (Invalidated, setClipFirst (negb (fClipFirst v)) v)
      | _ => (Inherited, v)
      end
  | OtherEvent => (Inherited, v)
  end.

(** Draw a big red rect through some clip geometry and also draw that same
    geometry in black.  The order in which they are drawn can be swapped. *)
Definition drawGeometry (v : ClipDrawMatchView) (offset : SkPoint) (useAA : bool)
  : CanvasM unit :=
  (if fClipFirst v
   then draw_clipped_geom offset (fGeom v) useAA
   else ret tt) ;;;
  draw_normal_geom offset (fGeom v) useAA ;;;
  (if negb (fClipFirst v)
   then draw_clipped_geom offset (fGeom v) useAA
   else ret tt).

(** The offset of the frame drawn at [time]. *)
Definition offsetAt (v : ClipDrawMatchView) (time : SkMSec) : SkPoint :=
  let trans := Interpolator.timeToValues (fTrans v) time in
  mkPoint (nth 0 trans zero) (nth 1 trans zero).

(** [now] is what [SkTime::GetMSecs()] returns in this frame.  The closing
    [this->inval(NULL)] asks for the next frame and touches neither the
    canvas nor the fields of the view. *)
Definition onDrawContent (v : ClipDrawMatchView) (now : SkMSec) : CanvasM unit :=
  let offset := offsetAt v now in
  saveCount <- Canvas.save ;;
  drawGeometry v offset false ;;;
  Canvas.restoreToCount saveCount.

(* ================================================================= *)
(** ** Reading the log of a canvas *)

(** The calls that running [m] on [c] adds to the log of [c]. *)
Definition newCalls {A} (m : CanvasM A) (c : SkCanvas) : list CanvasCall :=
  skipn (List.length (fCalls c)) (fCalls (exec m c)).

Definition drawsOf (calls : list CanvasCall) : list (MCRec * Shape * SkPaint) :=
  flat_map (fun call => match call with
                        | CallDraw mc s p => [(mc, s, p)]
                        | _ => []
                        end) calls.

Definition clipsOf (calls : list CanvasCall) : list ClipElement :=
  flat_map (fun call => match call with
                        | CallClip e => [e]
                        | _ => []
                        end) calls.

Definition isCompound (geom : Geometry) : bool :=
  match geom with
  | kRectAndRect_Geometry | kRectAndRRect_Geometry
  | kRectAndConvex_Geometry | kRectAndConcave_Geometry => true
  | _ => false
  end.

(** The shape a geometry tag stands for at an offset: what the description
    calls the derived geometry.  A compound tag stands for its inner shape. *)
Definition geometryShape (geom : Geometry) (offset : SkPoint) : Shape :=
  match geom with
  | kRect_Geometry | kRectAndRect_Geometry => RectShape (create_rect offset)
  | kRRect_Geometry | kRectAndRRect_Geometry => RRectShape (create_rrect offset)
  | kCircle_Geometry => RRectShape (create_circle offset)
  | kConvexPath_Geometry | kRectAndConvex_Geometry =>
      PathShape (create_convex_path offset)
  | kConcavePath_Geometry | kRectAndConcave_Geometry =>
      PathShape (create_concave_path offset)
  end.

(** The outer rectangle of the compound geometries: the basic rect moved by
    the offset and then by (-100, -100). *)
Definition outerRect (offset : SkPoint) : SkRect :=
  Rect.offset fNeg100 fNeg100
    (Rect.offsetPt offset (MakeLTRB kMin kMin kMax kMax)).

(** The clip the clipped pass builds, element by element. *)
Definition clipElements (geom : Geometry) (offset : SkPoint) (useAA : bool)
  : list ClipElement :=
  if isCompound geom
  then [mkClip (RectShape (outerRect offset)) kReplace_Op true;
        mkClip (geometryShape geom offset) kIntersect_Op useAA]
  else [mkClip (geometryShape geom offset) kReplace_Op useAA].

(** The rectangle as large as the device. *)
Definition deviceRect (c : SkCanvas) : SkRect :=
  Rect.MakeWH (SkIntToScalar (fst (fDeviceSize c)))
              (SkIntToScalar (snd (fDeviceSize c))).

Definition redPaint : SkPaint := mkPaint SK_ColorRED false.
Definition blackPaint (useAA : bool) : SkPaint := mkPaint SK_ColorBLACK useAA.

(** The log entries of the clipped pass started on [c]. *)
Definition clippedCalls (geom : Geometry) (offset : SkPoint) (useAA : bool)
    (c : SkCanvas) : list CanvasCall :=
  CallSave :: map CallClip (clipElements geom offset useAA) ++
  [CallDraw (mkMCRec (fMatrix (fMCRec c)) (clipElements geom offset useAA))
            (RectShape (deviceRect c)) redPaint;
   CallRestoreToCount (Canvas.getSaveCount c)].

(** The log entry of the direct pass started on [c]. *)
Definition directCalls (geom : Geometry) (offset : SkPoint) (useAA : bool)
    (c : SkCanvas) : list CanvasCall :=
  [CallDraw (fMCRec c) (geometryShape geom offset) (blackPaint useAA)].

(** [c] with [calls] added at the end of its log. *)
Definition logged (calls : list CanvasCall) (c : SkCanvas) : SkCanvas :=
  mkCanvas (fDeviceSize c) (fMCRec c) (fSaved c) (fCalls c ++ calls).

(* ================================================================= *)
(** ** Reference values and instances *)

Definition zeroPt : SkPoint := mkPoint zero zero.

(** A canvas to run examples on: a 640x480 device, no matrix entries, a wide
    open clip, nothing saved, nothing logged. *)
Definition exampleCanvas : SkCanvas := mkCanvas (640, 480) (mkMCRec [] []) [] [].

(** The key frames of the slide when the first one is at [start] and they
    are 1000 apart. *)
Definition keyFramesFrom (start : SkMSec) : list SkTimeCode :=
  [mkTimeCode start [zero; zero];
   mkTimeCode (start + 1000) [zero; one];
   mkTimeCode (start + 2000) [one; one];
   mkTimeCode (start + 3000) [one; zero];
   mkTimeCode (start + 4000) [zero; zero]].

(** The values of the key frames, as points. *)
Definition keyValue (i : nat) : SkPoint :=
  nth i [mkPoint zero zero; mkPoint zero one; mkPoint one one;
         mkPoint one zero; mkPoint zero zero] zeroPt.

Definition interpPoint (p q : SkPoint) (t : SkScalar) : SkPoint :=
  mkPoint (Interpolator.SkScalarInterp (fX p) (fX q) t)
          (Interpolator.SkScalarInterp (fY p) (fY q) t).

(** The scalar [k / d]. *)
Definition fraction (k d : Z) : SkScalar :=
  div (SkIntToScalar k) (SkIntToScalar d).

Definition pointOf (values : list SkScalar) : SkPoint :=
  mkPoint (nth 0 values zero) (nth 1 values zero).

(** A clock that stands still at 0 while the constructor runs. *)
Definition stillClock : nat -> SkMSec := fun _ => 0.

(** A clock that ticks once, just before the constructor reads it for the
    last key frame. *)
Definition tickingClock : nat -> SkMSec :=
  fun k => match k with
           | 4%nat => 1
           | _ => 0
           end.

(** Whether a scalar lies between 0 and 1, ends included. *)
Definition inUnit (x : SkScalar) : bool := SFleb zero x && SFleb x one.

(** Whether a rectangle lies within [lo,lo]..[hi,hi]. *)
Definition rectWithin (lo hi : SkScalar) (r : SkRect) : bool :=
  SFleb lo (fLeft r) && SFleb lo (fTop r) &&
  SFleb (fRight r) hi && SFleb (fBottom r) hi.

(** The integers [0], [1], ..., [n - 1]. *)
Definition upto (n : nat) : list Z := map Z.of_nat (seq 0 n).

(* ================================================================= *)
(** ** The install script *)

(** The script [android_install_app] that follows the slide in the source
    file.  Its run is the list of what it prints and of the [adb] commands it
    issues, in order, and the way it ends. *)
Module InstallApp.

Local Open Scope string_scope.

(** What the sourced set-up scripts leave in the shell: the words the loop
    [for arg in ${APP_ARGS[@]}] runs over, and the variables the script
    reads. *)
Record Env : Type := mkEnv
  { APP_ARGS : list string;
    BUILDTYPE : string;
    ANDROID_ARCH : string;
    SCRIPT_DIR : string }.

Inductive Effect : Type :=
| Echo (line : string)
| AdbUninstall (package : string)  (* $ADB ${DEVICE_SERIAL} uninstall package *)
| AdbInstall (apk : string).       (* $ADB ${DEVICE_SERIAL} install -r apk *)

(** How the script ends: by one of its [exit]s, or after its last command,
    the install. *)
Inductive Status : Type :=
| Exit (code : Z)
| RanInstall.

Definition print_usage : list Effect :=
  [Echo "USAGE: android_install_app [options]";
   Echo " Options:         -f  Forces the package to be installed by removing any";
   Echo "                      previously installed packages";
   Echo "                  -h  Prints this help message";
   Echo "            --release Install the release build of Skia";
   Echo "      -s [device_s/n] Serial number of the device to be used";
   Echo "              AppName Can be either sample_app or VisualBench"].

(** [[[ ${arg} == '-'* ]]]. *)
Definition startsWithDash (arg : string) : bool :=
  match arg with
  | String "-"%char _ => true
  | _ => false
  end.

(** How the loop over the arguments ends: by an [exit], or with the values
    of [forceRemoval] and [app]. *)
Inductive LoopEnd : Type :=
| Break (code : Z)
| Done (forceRemoval app : string).

Fixpoint loop (args : list string) (forceRemoval app : string)
  : list Effect * LoopEnd :=
  match args with
  | [] => ([], Done forceRemoval app)
  | arg :: rest =>
      if String.eqb arg "-f" then loop rest "true" app
      else if String.eqb arg "-h" then (print_usage, Break 0)
      else if String.eqb arg "-r" then
        let (out, e) := loop rest forceRemoval app in
        (Echo "DEPRECATED: -r is now a no-op" :: out, e)
      else if startsWithDash arg then
        (Echo (String.append "ERROR: unrecognized option " arg) :: print_usage,
         Break 1)
      else if negb (String.eqb app EmptyString) then
        ([Echo (String.append "ERROR: app already defined " app)], Break 1)
      else loop rest forceRemoval arg
  end.

(** [tr "[:upper:]" "[:lower:]"] on one character. *)
Definition lowerChar (c : ascii) : ascii :=
  let n := nat_of_ascii c in
  if (65 <=? n)%nat && (n <=? 90)%nat then ascii_of_nat (n + 32) else c.

Fixpoint lower (s : string) : string :=
  match s with
  | EmptyString => EmptyString
  | String c s' => String (lowerChar c) (lower s')
  end.

Definition concat (parts : list string) : string :=
  fold_right String.append EmptyString parts.

(** The path of the package under [apps], as the last lines build it. *)
Definition apkPath (app_lc arch apk_suffix : string) : string :=
  concat [app_lc; "/build/outputs/apk/"; app_lc; "-"; arch; "-"; apk_suffix].

Definition main (env : Env) : list Effect * Status :=
  let forceRemoval := "false" in
  let app := EmptyString in
  match loop (APP_ARGS env) forceRemoval app with
  | (out, Break code) => (out, Exit code)
  | (out, Done forceRemoval app) =>
      let (out1, app) :=
        if String.eqb app EmptyString
        then ([Echo "defaulting to installing sample_app."], "sample_app")
        else ([], app) in
      let out2 :=
        if String.eqb forceRemoval "true"
        then [Echo "Forcing removal of previously installed packages";
              AdbUninstall "com.skia"]
        else [] in
      let apk_suffix :=
        if String.eqb (BUILDTYPE env) "Release"
        then "release-unsigned.apk"
        else "debug.apk" in
      let APP_LC := lower app in
      ((out ++ out1 ++ out2 ++
        [Echo (concat ["Installing "; APP_LC; " from ";
                       apkPath APP_LC (ANDROID_ARCH env) apk_suffix]);
         AdbInstall (concat [SCRIPT_DIR env; "/../apps/";
                             apkPath APP_LC (ANDROID_ARCH env) apk_suffix])])%list,
       RanInstall)
  end.

(** The [adb] commands among the effects of a run. *)
Definition adbOf (effects : list Effect) : list Effect :=
  filter (fun e => match e with
                   | Echo _ => false
                   | _ => true
                   end) effects.


End InstallApp.


(* ================================================================= *)
(** ** What each pass does to the canvas *)

Lemma skipn_length_app {A} (l l' : list A) :
  skipn (List.length l) (l ++ l') = l'.
Proof. induction l as [|x l IH]; simpl; auto. Qed.

Lemma newCalls_logged {A} (m : CanvasM A) (c : SkCanvas) calls :
  exec m c = logged calls c -> newCalls m c = calls.
Proof.
  intros H. unfold newCalls. rewrite H. simpl. apply skipn_length_app.
Qed.

Lemma logged_logged calls1 calls2 c :
  logged calls2 (logged calls1 c) = logged (calls1 ++ calls2) c.
Proof. unfold logged; simpl. now rewrite app_assoc. Qed.

Lemma logged_nil c : logged [] c = c.
Proof. destruct c. unfold logged; simpl. now rewrite app_nil_r. Qed.

Lemma getSaveCount_pos c : 1 <= Canvas.getSaveCount c.
Proof. unfold Canvas.getSaveCount. lia. Qed.

(** Undoing one [save]: restoring to the count that [save] returned brings
    back the record and the stack from before it. *)
Lemma restore_one size mc mc0 saved calls :
  let count := Z.of_nat (S (List.length saved)) in
  Canvas.restoreToCount count (mkCanvas size mc (mc0 :: saved) calls) =
  (tt, mkCanvas size mc0 saved (calls ++ [CallRestoreToCount count])).
Proof.
  intros count. unfold Canvas.restoreToCount, Canvas.getSaveCount. simpl fSaved.
  replace (Z.to_nat (Z.of_nat (S (List.length (mc0 :: saved))) - Z.max count 1))
    with 1%nat by (subst count; simpl List.length; lia).
  reflexivity.
Qed.

Lemma exec_draw_clipped_geom offset geom useAA c :
  exec (draw_clipped_geom offset geom useAA) c =
  logged (clippedCalls geom offset useAA c) c.
Proof.
  destruct c as [size mc saved calls].
  unfold exec, draw_clipped_geom, bind, Canvas.save, Canvas.getSaveCount.
  destruct geom; cbn -[Canvas.restoreToCount Z.of_nat create_rect create_rrect
    create_circle create_convex_path create_concave_path SkIntToScalar];
    unfold Canvas.logCall;
    cbn -[Canvas.restoreToCount Z.of_nat create_rect create_rrect
    create_circle create_convex_path create_concave_path SkIntToScalar];
    rewrite restore_one; unfold logged, clippedCalls; cbn; f_equal;
    repeat rewrite <- app_assoc; reflexivity.
Qed.

Lemma exec_draw_normal_geom offset geom useAA c :
  exec (draw_normal_geom offset geom useAA) c =
  logged (directCalls geom offset useAA c) c.
Proof. destruct geom; reflexivity. Qed.

Lemma exec_bind {A B} (m : CanvasM A) (k : A -> CanvasM B) c :
  exec (bind m k) c = exec (k (fst (m c))) (snd (m c)).
Proof. unfold exec, bind. destruct (m c); reflexivity. Qed.

Lemma exec_seq {B} (m : CanvasM unit) (k : CanvasM B) c :
  exec (m ;;; k) c = exec k (exec m c).
Proof. unfold exec, bind. destruct (m c) as [[] c']; reflexivity. Qed.

Lemma exec_drawGeometry v offset useAA c :
  exec (drawGeometry v offset useAA) c =
  logged (if fClipFirst v
          then clippedCalls (fGeom v) offset useAA c ++
               directCalls (fGeom v) offset useAA c
          else directCalls (fGeom v) offset useAA c ++
               clippedCalls (fGeom v) offset useAA c) c.
Proof.
  unfold drawGeometry. rewrite !exec_seq.
  destruct (fClipFirst v); simpl negb; cbv iota.
  - rewrite exec_draw_clipped_geom, exec_draw_normal_geom.
    unfold exec at 1, ret; simpl snd. now rewrite logged_logged.
  - unfold exec at 3, ret; simpl snd.
    rewrite exec_draw_normal_geom, exec_draw_clipped_geom.
    now rewrite logged_logged.
Qed.

Lemma newCalls_draw_clipped_geom offset geom useAA c :
  newCalls (draw_clipped_geom offset geom useAA) c =
  clippedCalls geom offset useAA c.
Proof. apply newCalls_logged, exec_draw_clipped_geom. Qed.

Lemma newCalls_draw_normal_geom offset geom useAA c :
  newCalls (draw_normal_geom offset geom useAA) c =
  directCalls geom offset useAA c.
Proof. apply newCalls_logged, exec_draw_normal_geom. Qed.

Lemma newCalls_drawGeometry v offset useAA c :
  newCalls (drawGeometry v offset useAA) c =
  if fClipFirst v
  then clippedCalls (fGeom v) offset useAA c ++ directCalls (fGeom v) offset useAA c
  else directCalls (fGeom v) offset useAA c ++ clippedCalls (fGeom v) offset useAA c.
Proof. apply newCalls_logged, exec_drawGeometry. Qed.

Lemma drawsOf_app l1 l2 : drawsOf (l1 ++ l2) = drawsOf l1 ++ drawsOf l2.
Proof. unfold drawsOf. apply flat_map_app. Qed.

Lemma clipsOf_app l1 l2 : clipsOf (l1 ++ l2) = clipsOf l1 ++ clipsOf l2.
Proof. unfold clipsOf. apply flat_map_app. Qed.

Lemma clipsOf_map_CallClip es : clipsOf (map CallClip es) = es.
Proof. induction es as [|e es IH]; simpl; congruence. Qed.

Lemma drawsOf_map_CallClip es : drawsOf (map CallClip es) = [].
Proof. induction es as [|e es IH]; simpl; congruence. Qed.

Lemma drawsOf_clippedCalls geom offset useAA c :
  drawsOf (clippedCalls geom offset useAA c) =
  [(mkMCRec (fMatrix (fMCRec c)) (clipElements geom offset useAA),
    RectShape (deviceRect c), redPaint)].
Proof.
  unfold clippedCalls. cbn [drawsOf flat_map app].
  change (flat_map _ ?l) with (drawsOf l).
  now rewrite drawsOf_app, drawsOf_map_CallClip.
Qed.

Lemma clipsOf_clippedCalls geom offset useAA c :
  clipsOf (clippedCalls geom offset useAA c) = clipElements geom offset useAA.
Proof.
  unfold clippedCalls. cbn [clipsOf flat_map app].
  change (flat_map _ ?l) with (clipsOf l).
  rewrite clipsOf_app, clipsOf_map_CallClip. simpl. apply app_nil_r.
Qed.

(** The last element of the clip is the geometry itself, under the flag the
    caller gave. *)
Lemma clipElements_last geom offset useAA :
  exists outer e,
    clipElements geom offset useAA = outer ++ [e] /\
    ceShape e = geometryShape geom offset /\ ceAA e = useAA.
Proof.
  unfold clipElements. destruct (isCompound geom).
  - exists [mkClip (RectShape (outerRect offset)) kReplace_Op true].
    eexists; repeat split.
  - exists []. eexists; repeat split.
Qed.

Lemma geometryShape_zero_bounds geom :
  shapeBounds (geometryShape geom zeroPt) = MakeLTRB kMin kMin kMax kMax.
Proof. destruct geom; vm_compute; reflexivity. Qed.

(** A geometry at an offset is the geometry at the zero offset, moved. *)
Lemma geometryShape_translate geom offset :
  geometryShape geom offset = shapeOffset offset (geometryShape geom zeroPt).
Proof.
  assert (Hr : create_rect zeroPt = MakeLTRB kMin kMin kMax kMax)
    by (vm_compute; reflexivity).
  assert (Hx : create_convex_path offset =
               Path.offset (fX offset) (fY offset) (create_convex_path zeroPt)).
  { let base := eval vm_compute in (create_convex_path zeroPt) in
    change (create_convex_path zeroPt) with base. reflexivity. }
  assert (Hv : create_concave_path offset =
               Path.offset (fX offset) (fY offset) (create_concave_path zeroPt)).
  { let base := eval vm_compute in (create_concave_path zeroPt) in
    change (create_concave_path zeroPt) with base. reflexivity. }
  destruct geom; unfold geometryShape, shapeOffset;
    rewrite ?Hx, ?Hv; try reflexivity;
    unfold create_rrect, create_circle, RRect.offset, RRect.setRectXY,
      RRect.setOval; cbn [rrRect rrCorners]; rewrite Hr; reflexivity.
Qed.

(** A frame: a save, the two passes with the anti-alias flag off, and the
    restore that undoes the save. *)
Lemma exec_onDrawContent v now c :
  exec (onDrawContent v now) c =
  logged (CallSave ::
          newCalls (drawGeometry v (offsetAt v now) false) (snd (Canvas.save c)) ++
          [CallRestoreToCount (Canvas.getSaveCount c)]) c.
Proof.
  unfold onDrawContent. rewrite exec_bind, exec_seq.
  rewrite newCalls_drawGeometry, exec_drawGeometry.
  set (calls := if fClipFirst v then _ else _).
  destruct c as [size mc saved log].
  unfold exec, logged, Canvas.save, Canvas.logCall, Canvas.getSaveCount.
  cbn [fst snd fDeviceSize fMCRec fSaved fCalls].
  rewrite restore_one.
  cbn [snd]. f_equal. rewrite <- !app_assoc. reflexivity.
Qed.

Lemma newCalls_onDrawContent v now c :
  newCalls (onDrawContent v now) c =
  CallSave ::
  newCalls (drawGeometry v (offsetAt v now) false) (snd (Canvas.save c)) ++
  [CallRestoreToCount (Canvas.getSaveCount c)].
Proof. apply newCalls_logged, exec_onDrawContent. Qed.

(* ================================================================= *)
(** ** The two passes of a frame *)

(** C1.  For every geometry kind, offset and anti-alias flag, [drawGeometry]
    makes exactly two draws: the clipped pass (the red device-sized rectangle
    under a clip whose last element is the geometry at the offset) and the
    direct pass (the same geometry at the same offset, in black).  Their order
    depends on [fClipFirst] alone: the clipped pass comes first when it is
    set, the direct pass comes first otherwise. *)
Theorem drawGeometry_two_passes_in_order :
  forall (v : ClipDrawMatchView) (offset : SkPoint) (useAA : bool) (c : SkCanvas),
    let clipped := newCalls (draw_clipped_geom offset (fGeom v) useAA) c in
    let direct := newCalls (draw_normal_geom offset (fGeom v) useAA) c in
    newCalls (drawGeometry v offset useAA) c =
      (if fClipFirst v then clipped ++ direct else direct ++ clipped) /\
    List.length (drawsOf (newCalls (drawGeometry v offset useAA) c)) = 2%nat /\
    drawsOf direct =
      [(fMCRec c, geometryShape (fGeom v) offset, blackPaint useAA)] /\
    exists outer e,
      drawsOf clipped =
        [(mkMCRec (fMatrix (fMCRec c)) (outer ++ [e]),
          RectShape (deviceRect c), redPaint)] /\
      ceShape e = geometryShape (fGeom v) offset /\ ceAA e = useAA.
Proof.
  intros v offset useAA c clipped direct. subst clipped direct.
  rewrite newCalls_drawGeometry, newCalls_draw_clipped_geom,
    newCalls_draw_normal_geom.
  split; [reflexivity|]. split.
  - destruct (fClipFirst v); rewrite drawsOf_app, drawsOf_clippedCalls;
      reflexivity.
  - split; [reflexivity|].
    destruct (clipElements_last (fGeom v) offset useAA) as (outer & e & He & Hs & Ha).
    exists outer, e. rewrite drawsOf_clippedCalls, He. auto.
Qed.

(** C2, as the code has it.  For each of the four compound geometry kinds and
    every offset, the clipped pass first replaces the clip with the basic rect
    moved by the offset and then by (-100, -100), with anti-aliasing forced
    on, and then intersects it with the inner shape, which is the shape at
    the zero offset moved by the offset, with the anti-alias flag the caller
    gave; the red rectangle is drawn under these two elements. *)
Theorem compound_clip_replace_then_intersect :
  forall (geom : Geometry) (offset : SkPoint) (useAA : bool) (c : SkCanvas),
    isCompound geom = true ->
    clipsOf (newCalls (draw_clipped_geom offset geom useAA) c) =
      [mkClip (RectShape
                 (Rect.offset fNeg100 fNeg100
                    (Rect.offsetPt offset (MakeLTRB kMin kMin kMax kMax))))
              kReplace_Op true;
       mkClip (geometryShape geom offset) kIntersect_Op useAA] /\
    geometryShape geom offset = shapeOffset offset (geometryShape geom zeroPt) /\
    drawsOf (newCalls (draw_clipped_geom offset geom useAA) c) =
      [(mkMCRec (fMatrix (fMCRec c))
          [mkClip (RectShape (outerRect offset)) kReplace_Op true;
           mkClip (geometryShape geom offset) kIntersect_Op useAA],
        RectShape (deviceRect c), redPaint)].
Proof.
  intros geom offset useAA c Hc.
  rewrite newCalls_draw_clipped_geom, clipsOf_clippedCalls, drawsOf_clippedCalls.
  unfold clipElements. rewrite Hc.
  split; [reflexivity|]. split; [apply geometryShape_translate|reflexivity].
Qed.

(** C3.  For every geometry kind, offset and anti-alias flag, the clipped pass
    leaves the matrix/clip record in force and the stack of saved records as
    it found them; so does a whole [drawGeometry] and a whole frame. *)
Theorem draw_clipped_geom_restores_clip :
  forall (offset : SkPoint) (geom : Geometry) (useAA : bool) (c : SkCanvas),
    let c' := exec (draw_clipped_geom offset geom useAA) c in
    fMCRec c' = fMCRec c /\
    fSaved c' = fSaved c /\
    Canvas.getSaveCount c' = Canvas.getSaveCount c /\
    (forall (v : ClipDrawMatchView),
        fMCRec (exec (drawGeometry v offset useAA) c) = fMCRec c /\
        fSaved (exec (drawGeometry v offset useAA) c) = fSaved c) /\
    (forall (v : ClipDrawMatchView) (now : SkMSec),
        fMCRec (exec (onDrawContent v now) c) = fMCRec c /\
        fSaved (exec (onDrawContent v now) c) = fSaved c).
Proof.
  intros offset geom useAA c c'. subst c'.
  rewrite exec_draw_clipped_geom. repeat split; try reflexivity.
  - now rewrite exec_drawGeometry.
  - now rewrite exec_drawGeometry.
  - now rewrite exec_onDrawContent.
  - now rewrite exec_onDrawContent.
Qed.

(** C6.  For every offset, the direct pass draws the same shape for a simple
    kind and for its compound counterpart: the rectangle for rect and
    rect-and-rect, the rounded rectangle for rrect and rect-and-rrect, the
    convex path for convex and rect-and-convex, the concave path for concave
    and rect-and-concave. *)
Theorem draw_normal_geom_shares_shapes :
  forall (offset : SkPoint) (useAA : bool) (c : SkCanvas),
    let drawn geom := drawsOf (newCalls (draw_normal_geom offset geom useAA) c) in
    drawn kRect_Geometry =
      [(fMCRec c, RectShape (create_rect offset), blackPaint useAA)] /\
    drawn kRectAndRect_Geometry = drawn kRect_Geometry /\
    drawn kRRect_Geometry =
      [(fMCRec c, RRectShape (create_rrect offset), blackPaint useAA)] /\
    drawn kRectAndRRect_Geometry = drawn kRRect_Geometry /\
    drawn kConvexPath_Geometry =
      [(fMCRec c, PathShape (create_convex_path offset), blackPaint useAA)] /\
    drawn kRectAndConvex_Geometry = drawn kConvexPath_Geometry /\
    drawn kConcavePath_Geometry =
      [(fMCRec c, PathShape (create_concave_path offset), blackPaint useAA)] /\
    drawn kRectAndConcave_Geometry = drawn kConcavePath_Geometry.
Proof.
  intros offset useAA c drawn. subst drawn. cbv beta.
  rewrite !newCalls_draw_normal_geom. repeat split.
Qed.

(** C7.  Every frame passes [false] as the anti-alias flag of its two passes:
    no draw of a frame is anti-aliased, and for a simple kind no clip of a
    frame is.  For a compound kind the outer rectangle is still clipped with
    anti-aliasing on, in a frame and under any flag given to the clipped
    pass. *)
Theorem onDrawContent_aa_off_but_outer_rect :
  forall (v : ClipDrawMatchView) (now : SkMSec) (c : SkCanvas),
    newCalls (onDrawContent v now) c =
      CallSave ::
      newCalls (drawGeometry v (offsetAt v now) false) (snd (Canvas.save c)) ++
      [CallRestoreToCount (Canvas.getSaveCount c)] /\
    forallb (fun d => negb (fAntiAlias (snd d)))
            (drawsOf (newCalls (onDrawContent v now) c)) = true /\
    (isCompound (fGeom v) = false ->
     forallb (fun e => negb (ceAA e))
             (clipsOf (newCalls (onDrawContent v now) c)) = true) /\
    (isCompound (fGeom v) = true ->
     clipsOf (newCalls (onDrawContent v now) c) =
       [mkClip (RectShape (outerRect (offsetAt v now))) kReplace_Op true;
        mkClip (geometryShape (fGeom v) (offsetAt v now)) kIntersect_Op false] /\
     forall (offset : SkPoint) (useAA : bool) (c' : SkCanvas),
       hd_error (clipsOf (newCalls (draw_clipped_geom offset (fGeom v) useAA) c')) =
       Some (mkClip (RectShape (outerRect offset)) kReplace_Op true)).
Proof.
  intros v now c. split; [apply newCalls_onDrawContent|].
  rewrite newCalls_onDrawContent, newCalls_drawGeometry.
  set (off := offsetAt v now). set (c1 := snd (Canvas.save c)).
  assert (Hclips :
    clipsOf (CallSave ::
             (if fClipFirst v
              then clippedCalls (fGeom v) off false c1 ++
                   directCalls (fGeom v) off false c1
              else directCalls (fGeom v) off false c1 ++
                   clippedCalls (fGeom v) off false c1) ++
             [CallRestoreToCount (Canvas.getSaveCount c)]) =
    clipElements (fGeom v) off false).
  { change (clipsOf (CallSave :: ?l)) with (clipsOf l).
    rewrite clipsOf_app.
    destruct (fClipFirst v); rewrite clipsOf_app, clipsOf_clippedCalls;
      simpl; now rewrite ?app_nil_r. }
  split; [|split].
  - change (drawsOf (CallSave :: ?l)) with (drawsOf l).
    rewrite drawsOf_app.
    destruct (fClipFirst v); rewrite drawsOf_app, drawsOf_clippedCalls;
      reflexivity.
  - intros Hs. rewrite Hclips. unfold clipElements. rewrite Hs. reflexivity.
  - intros Hc. split.
    + rewrite Hclips. unfold clipElements. now rewrite Hc.
    + intros offset useAA c'.
      rewrite newCalls_draw_clipped_geom, clipsOf_clippedCalls.
      unfold clipElements. now rewrite Hc.
Qed.

(* ================================================================= *)
(** ** Key presses *)

(** C5, as the code has it.  Selecting a geometry is idempotent: for every
    starting state, pressing the same key of '1'..'9' twice leaves the state
    that pressing it once leaves.  The draw-order key is a toggle: pressing
    't' once inverts [fClipFirst], pressing it twice gives back the starting
    state. *)
Theorem select_idempotent_toggle_involutive :
  forall (v : ClipDrawMatchView) (uni : Z),
    49 <= uni <= 57 ->
    let once := snd (onQuery (CharEvent uni) v) in
    snd (onQuery (CharEvent uni) once) = once /\
    fClipFirst once = fClipFirst v /\
    fClipFirst (snd (onQuery (CharEvent 116) v)) = negb (fClipFirst v) /\
    fGeom (snd (onQuery (CharEvent 116) v)) = fGeom v /\
    snd (onQuery (CharEvent 116) (snd (onQuery (CharEvent 116) v))) = v.
Proof.
  intros v uni Huni once. subst once.
  assert (Hcases : uni = 49 \/ uni = 50 \/ uni = 51 \/ uni = 52 \/ uni = 53 \/
                   uni = 54 \/ uni = 55 \/ uni = 56 \/ uni = 57) by lia.
  destruct v as [trans geom clipFirst].
  repeat split;
    try (repeat (destruct Hcases as [-> | Hcases]); try subst uni; reflexivity).
  cbn. now rewrite negb_involutive.
Qed.

(** C9.  A character that is none of '1'..'9' and 't' is passed on to the
    inherited handler, and the view keeps its geometry kind and its
    clip-first flag; so is an event that is neither a title query nor a
    character. *)
Theorem onQuery_other_char_unchanged :
  forall (uni : Z) (v : ClipDrawMatchView),
    ~ (49 <= uni <= 57) -> uni <> 116 ->
    onQuery (CharEvent uni) v = (Inherited, v) /\
    fGeom (snd (onQuery (CharEvent uni) v)) = fGeom v /\
    fClipFirst (snd (onQuery (CharEvent uni) v)) = fClipFirst v /\
    onQuery OtherEvent v = (Inherited, v).
Proof.
  intros uni v Hdigit Ht.
  assert (H : onQuery (CharEvent uni) v = (Inherited, v)).
  { destruct uni as [|p|p]; try reflexivity.
    do 7 (try (destruct p as [p|p|]; try reflexivity)); exfalso; lia. }
  rewrite H. repeat split.
Qed.

(* ================================================================= *)
(** ** The basic square *)

(** C8.  The basic rect is [100.5,100.5]..[299.5,299.5]; [create_rect] at the
    zero offset is exactly it; for every geometry kind the shape at the zero
    offset has that rectangle as its bounds, the convex and the concave path
    among them; and a shape at an offset is the shape at the zero offset
    moved by the offset. *)
Theorem base_shape_spans_fixed_square :
  kMin = dyadic 201 (-1) /\ kMax = dyadic 599 (-1) /\
  create_rect zeroPt = MakeLTRB kMin kMin kMax kMax /\
  Path.getBounds (create_convex_path zeroPt) = MakeLTRB kMin kMin kMax kMax /\
  Path.getBounds (create_concave_path zeroPt) = MakeLTRB kMin kMin kMax kMax /\
  (forall geom : Geometry,
      shapeBounds (geometryShape geom zeroPt) = MakeLTRB kMin kMin kMax kMax) /\
  (forall (geom : Geometry) (offset : SkPoint),
      geometryShape geom offset = shapeOffset offset (geometryShape geom zeroPt)) /\
  (forall offset : SkPoint,
      create_rect offset =
      MakeLTRB (add kMin (fX offset)) (add kMin (fY offset))
               (add kMax (fX offset)) (add kMax (fY offset))).
Proof.
  repeat split; try (vm_compute; reflexivity).
  - apply geometryShape_zero_bounds.
  - apply geometryShape_translate.
Qed.

(* ================================================================= *)
(** ** The animated offset *)

Lemma msecWrap_small t : 0 <= t < 2 ^ 32 -> msecWrap t = t.
Proof. intros H. unfold msecWrap. now apply Z.mod_small. Qed.

(** When every clock reading of the constructor is [now], the key frames
    are 1000 apart, the first one a second after [now]. *)
Lemma new_view_frames (GetMSecs : nat -> SkMSec) (now : SkMSec) :
  (forall k, (k < 5)%nat -> GetMSecs k = now) ->
  0 <= now -> now + 5000 < 2 ^ 32 ->
  fTrans (ClipDrawMatchView_new GetMSecs) =
  mkInterpolator 2 999 (keyFramesFrom (now + 1000)).
Proof.
  intros Hclock H0 Hmax.
  unfold ClipDrawMatchView_new, Interpolator.setKeyFrame,
    Interpolator.setRepeatCount, Interpolator.make, keyFramesFrom.
  cbn [fTrans fElemCount fRepeat fFrames store repeat firstn].
  rewrite !Hclock by lia.
  rewrite !msecWrap_small by lia.
  replace (now + 1000 + 1000) with (now + 2000) by lia.
  replace (now + 1000 + 2000) with (now + 3000) by lia.
  replace (now + 1000 + 3000) with (now + 4000) by lia.
  replace (now + 1000 + 4000) with (now + 5000) by lia.
  reflexivity.
Qed.

(** While the animation runs, the value is the one of the first period at
    the same phase. *)
Lemma timeToValues_running start t :
  start <= t < start + 999 * 4000 ->
  Interpolator.timeToValues (mkInterpolator 2 999 (keyFramesFrom start)) t =
  Interpolator.valuesFrom (mkTimeCode start [zero; zero])
    (tl (keyFramesFrom start)) (start + (t - start) mod 4000).
Proof.
  intros Ht. unfold Interpolator.timeToValues, keyFramesFrom.
  cbn [fFrames fRepeat tcTime last tl].
  replace (start + 4000 - start) with 4000 by lia.
  destruct (Z.ltb_spec t start) as [Hlt|_]; [lia|].
  destruct (Z.leb_spec (999 * 4000) (t - start)) as [Hle|_]; [lia|].
  reflexivity.
Qed.

(** Once the repetitions are over, the value is the one of the last key
    frame. *)
Lemma timeToValues_over start t :
  start + 999 * 4000 <= t ->
  Interpolator.timeToValues (mkInterpolator 2 999 (keyFramesFrom start)) t =
  [zero; zero].
Proof.
  intros Ht. unfold Interpolator.timeToValues, keyFramesFrom.
  cbn [fFrames fRepeat tcTime tcValues last].
  replace (start + 4000 - start) with 4000 by lia.
  destruct (Z.ltb_spec t start) as [Hlt|_]; [lia|].
  destruct (Z.leb_spec (999 * 4000) (t - start)) as [_|Hgt]; [|lia].
  reflexivity.
Qed.

(** Inside the first period the value lies on the segment that the phase
    falls in. *)
Lemma valuesFrom_segment start (i : nat) (k : Z) :
  (i < 4)%nat -> 0 <= k < 1000 ->
  pointOf (Interpolator.valuesFrom (mkTimeCode start [zero; zero])
             (tl (keyFramesFrom start)) (start + (1000 * Z.of_nat i + k))) =
  interpPoint (keyValue i) (keyValue (S i)) (fraction k 1000).
Proof.
  intros Hi Hk. unfold keyFramesFrom. cbn [tl Interpolator.valuesFrom tcTime].
  destruct i as [|[|[|[|i]]]]; [| | | |lia];
    cbn [Z.of_nat Pos.of_succ_nat Pos.succ Z.mul Pos.mul Pos.add];
    repeat match goal with
    | |- context [?a <? ?b] => destruct (Z.ltb_spec a b); try lia
    end;
    unfold Interpolator.between, fraction; cbn [tcTime tcValues];
    match goal with
    | |- context [SkIntToScalar (?a - ?b)] =>
        replace (a - b) with k by lia
    end;
    match goal with
    | |- context [div _ (SkIntToScalar (?a - ?b))] =>
        replace (a - b) with 1000 by lia
    end;
    reflexivity.
Qed.

Section Running.

(** A view whose key frames are 1000 apart from [start] on and repeat 999
    times. *)
Variable v : ClipDrawMatchView.
Variable start : SkMSec.
Hypothesis frames_v : fTrans v = mkInterpolator 2 999 (keyFramesFrom start).

Lemma offsetAt_running t :
  start <= t < start + 999 * 4000 ->
  offsetAt v t =
  pointOf (Interpolator.valuesFrom (mkTimeCode start [zero; zero])
             (tl (keyFramesFrom start)) (start + (t - start) mod 4000)).
Proof.
  intros Ht. unfold offsetAt.
  rewrite frames_v, timeToValues_running by exact Ht.
  reflexivity.
Qed.

Lemma offsetAt_over t :
  start + 999 * 4000 <= t -> offsetAt v t = keyValue 4.
Proof.
  intros Ht. unfold offsetAt.
  rewrite frames_v, timeToValues_over by exact Ht.
  reflexivity.
Qed.

Lemma offsetAt_segment (n : Z) (i : nat) (k : Z) :
  0 <= n < 999 -> (i < 4)%nat -> 0 <= k < 1000 ->
  offsetAt v (start + 4000 * n + 1000 * Z.of_nat i + k) =
  interpPoint (keyValue i) (keyValue (S i)) (fraction k 1000).
Proof.
  intros Hn Hi Hk.
  rewrite offsetAt_running by lia.
  replace (start + 4000 * n + 1000 * Z.of_nat i + k - start)
    with (1000 * Z.of_nat i + k + n * 4000) by lia.
  rewrite Z_mod_plus_full, Z.mod_small by lia.
  now apply valuesFrom_segment.
Qed.

End Running.

Lemma interpPoint_at_key (i : nat) :
  (i < 4)%nat ->
  interpPoint (keyValue i) (keyValue (S i)) (fraction 0 1000) = keyValue i /\
  interpPoint (keyValue i) (keyValue (S i)) (fraction 1000 1000) = keyValue (S i).
Proof.
  intros Hi. destruct i as [|[|[|[|i]]]]; [| | | |lia];
    split; vm_compute; reflexivity.
Qed.

(** C4, as the code has it.  When the five clock readings of the constructor
    agree, the key frames are 1000 apart and for every time [t] from the first
    key frame on for which [t + 4000] is still within the 999 repetitions, the
    offset at [t + 4000] is the offset at [t].  In every repetition the offset
    at [k] after the [i]-th key time is the linear interpolation at [k / 1000]
    between the [i]-th and the next of the values (0,0), (0,1), (1,1), (1,0),
    (0,0); it is the key value itself at the key time; the interpolation
    reaches the next key value at the end of its segment, and the last key
    value is the first one, so that the loop closes without a jump. *)
Theorem offset_periodic_piecewise_linear :
  forall (GetMSecs : nat -> SkMSec) (now : SkMSec),
    (forall k, (k < 5)%nat -> GetMSecs k = now) ->
    0 <= now -> now + 5000 < 2 ^ 32 ->
    let v := ClipDrawMatchView_new GetMSecs in
    let start := now + 1000 in
    map tcTime (fFrames (fTrans v)) =
      [start; start + 1000; start + 2000; start + 3000; start + 4000] /\
    (forall t : SkMSec,
        start <= t -> t + 4000 <= start + 999 * 4000 ->
        offsetAt v (t + 4000) = offsetAt v t) /\
    (forall (n : Z) (i : nat) (k : Z),
        0 <= n < 999 -> (i < 4)%nat -> 0 <= k < 1000 ->
        offsetAt v (start + 4000 * n + 1000 * Z.of_nat i + k) =
        interpPoint (keyValue i) (keyValue (S i)) (fraction k 1000)) /\
    (forall (n : Z) (i : nat),
        0 <= n < 999 -> (i < 4)%nat ->
        offsetAt v (start + 4000 * n + 1000 * Z.of_nat i) = keyValue i) /\
    (forall i : nat,
        (i < 4)%nat ->
        interpPoint (keyValue i) (keyValue (S i)) (fraction 1000 1000) =
        keyValue (S i)) /\
    keyValue 4 = keyValue 0.
Proof.
  intros GetMSecs now Hclock H0 Hmax v start.
  assert (Hv : fTrans v = mkInterpolator 2 999 (keyFramesFrom start))
    by (apply new_view_frames; assumption).
  split; [|split; [|split; [|split; [|split]]]].
  - rewrite Hv. reflexivity.
  - intros t Hlo Hhi.
    destruct (Z.eq_dec (t + 4000) (start + 999 * 4000)) as [Hend|Hin].
    + rewrite (offsetAt_over v start Hv) by lia.
      replace t with (start + 4000 * 998 + 1000 * Z.of_nat 0 + 0) by (simpl; lia).
      rewrite (offsetAt_segment v start Hv) by lia.
      vm_compute; reflexivity.
    + rewrite !(offsetAt_running v start Hv) by lia.
      replace (t + 4000 - start) with (t - start + 1 * 4000) by lia.
      now rewrite Z_mod_plus_full.
  - intros n i k Hn Hi Hk. now apply (offsetAt_segment v start Hv).
  - intros n i Hn Hi.
    replace (start + 4000 * n + 1000 * Z.of_nat i)
      with (start + 4000 * n + 1000 * Z.of_nat i + 0) by lia.
    rewrite (offsetAt_segment v start Hv) by lia.
    now apply interpPoint_at_key.
  - intros i Hi. now apply interpPoint_at_key.
  - reflexivity.
Qed.

(* ================================================================= *)
(** ** A new view *)

(** C10.  A newly constructed view has the rectangle as its geometry and
    draws the clip first; its first frame is: save, the clipped pass with the
    rectangle as the clip, the direct pass drawing the same rectangle,
    restore. *)
Theorem new_view_rect_clip_first :
  forall (GetMSecs : nat -> SkMSec),
    let v := ClipDrawMatchView_new GetMSecs in
    fGeom v = kRect_Geometry /\
    fClipFirst v = true /\
    forall (now : SkMSec) (c : SkCanvas),
      let r := create_rect (offsetAt v now) in
      let clip := [mkClip (RectShape r) kReplace_Op false] in
      newCalls (onDrawContent v now) c =
        [CallSave;
         CallSave;
         CallClip (mkClip (RectShape r) kReplace_Op false);
         CallDraw (mkMCRec (fMatrix (fMCRec c)) clip)
                  (RectShape (deviceRect c)) redPaint;
         CallRestoreToCount (Canvas.getSaveCount c + 1);
         CallDraw (fMCRec c) (RectShape r) (blackPaint false);
         CallRestoreToCount (Canvas.getSaveCount c)].
Proof.
  intros GetMSecs v. split; [reflexivity|]. split; [reflexivity|].
  intros now c r clip. subst r clip.
  rewrite newCalls_onDrawContent, newCalls_drawGeometry.
  change (fClipFirst v) with true. change (fGeom v) with kRect_Geometry.
  cbv iota. set (off := offsetAt v now).
  destruct c as [size mc saved log].
  unfold clippedCalls, directCalls, clipElements, deviceRect, Canvas.save,
    Canvas.logCall, Canvas.getSaveCount.
  cbn [isCompound geometryShape map app snd fst fDeviceSize fMCRec fSaved
       fCalls List.length].
  replace (Z.of_nat (S (S (List.length saved))))
    with (Z.of_nat (S (List.length saved)) + 1) by lia.
  reflexivity.
Qed.

(* ================================================================= *)
(** ** Instances and counterexamples *)

Lemma compound_clip_replace_then_intersect_witness :
  isCompound kRectAndRRect_Geometry = true /\
  clipsOf (newCalls (draw_clipped_geom zeroPt kRectAndRRect_Geometry false)
             exampleCanvas) =
    [mkClip (RectShape
               (Rect.offset fNeg100 fNeg100
                  (Rect.offsetPt zeroPt (MakeLTRB kMin kMin kMax kMax))))
            kReplace_Op true;
     mkClip (geometryShape kRectAndRRect_Geometry zeroPt) kIntersect_Op false].
Proof.
  split.
  - reflexivity.
  - apply (proj1 (compound_clip_replace_then_intersect
                    kRectAndRRect_Geometry zeroPt false exampleCanvas eq_refl)).
Defined.

(** C2 as stated fails: with the caller's flag off, the intersect of the
    rect-and-rect geometry is made without anti-aliasing. *)
Lemma compound_intersect_aa_not_forced :
  ~ (forall (geom : Geometry) (offset : SkPoint) (useAA : bool) (c : SkCanvas)
            (e : ClipElement),
        isCompound geom = true ->
        In e (clipsOf (newCalls (draw_clipped_geom offset geom useAA) c)) ->
        ceOp e = kIntersect_Op -> ceAA e = true).
Proof.
  intros H.
  specialize (H kRectAndRect_Geometry zeroPt false exampleCanvas
                (mkClip (RectShape (create_rect zeroPt)) kIntersect_Op false)
                eq_refl).
  assert (Hfalse : false = true).
  { apply H; [|reflexivity].
    rewrite newCalls_draw_clipped_geom, clipsOf_clippedCalls.
    right; left; reflexivity. }
  discriminate Hfalse.
Qed.

Lemma offset_periodic_piecewise_linear_witness :
  (forall k, (k < 5)%nat -> stillClock k = 0) /\
  0 <= 0 /\ 0 + 5000 < 2 ^ 32 /\
  offsetAt (ClipDrawMatchView_new stillClock) (1500 + 4000) =
  offsetAt (ClipDrawMatchView_new stillClock) 1500.
Proof.
  assert (Hclock : forall k, (k < 5)%nat -> stillClock k = 0)
    by (intros k _; reflexivity).
  assert (H0 : 0 <= 0) by lia.
  assert (Hmax : 0 + 5000 < 2 ^ 32) by (vm_compute; reflexivity).
  split; [exact Hclock|]. split; [exact H0|]. split; [exact Hmax|].
  apply (offset_periodic_piecewise_linear stillClock 0 Hclock H0 Hmax); lia.
Defined.

(** C4 as stated fails.  With a still clock the key frames are at 1000, 2000,
    ..., 5000 and the 999 repetitions end at 3997000: the offset is (0, 0.5)
    at 3993500 and rests at (0, 0) at 3997500.  With a clock that ticks during
    construction the last key frame is at 5001 and the period is 4001: the
    offsets at 1500 and at 5500 differ. *)
Lemma offset_not_periodic_everywhere :
  ~ (forall t : SkMSec,
        offsetAt (ClipDrawMatchView_new stillClock) (t + 4000) =
        offsetAt (ClipDrawMatchView_new stillClock) t) /\
  ~ (forall t : SkMSec,
        offsetAt (ClipDrawMatchView_new tickingClock) (t + 4000) =
        offsetAt (ClipDrawMatchView_new tickingClock) t).
Proof.
  split; intros H.
  - specialize (H 3993500). vm_compute in H. discriminate H.
  - specialize (H 1500). vm_compute in H. discriminate H.
Qed.

Lemma select_idempotent_toggle_involutive_witness :
  49 <= 53 <= 57 /\
  snd (onQuery (CharEvent 53)
         (snd (onQuery (CharEvent 53) (ClipDrawMatchView_new stillClock)))) =
  snd (onQuery (CharEvent 53) (ClipDrawMatchView_new stillClock)).
Proof.
  assert (H : 49 <= 53 <= 57) by lia.
  split; [exact H|].
  apply (select_idempotent_toggle_involutive
           (ClipDrawMatchView_new stillClock) 53 H).
Defined.

(** C5 as stated fails: from a new view, pressing 't' twice leaves the clip
    first, pressing it once leaves the geometry first. *)
Lemma toggle_not_idempotent :
  ~ (forall v : ClipDrawMatchView,
        snd (onQuery (CharEvent 116) (snd (onQuery (CharEvent 116) v))) =
        snd (onQuery (CharEvent 116) v)).
Proof.
  intros H. specialize (H (ClipDrawMatchView_new stillClock)).
  apply (f_equal fClipFirst) in H. cbn in H. discriminate H.
Qed.

Lemma onDrawContent_aa_off_but_outer_rect_witness :
  let v := setGeom kRectAndConvex_Geometry (ClipDrawMatchView_new stillClock) in
  isCompound (fGeom v) = true /\
  hd_error (clipsOf (newCalls (draw_clipped_geom zeroPt (fGeom v) false)
                       exampleCanvas)) =
  Some (mkClip (RectShape (outerRect zeroPt)) kReplace_Op true).
Proof.
  intros v.
  assert (Hc : isCompound (fGeom v) = true) by reflexivity.
  split; [exact Hc|].
  apply (onDrawContent_aa_off_but_outer_rect v 1500 exampleCanvas); exact Hc.
Defined.

Lemma onQuery_other_char_unchanged_witness :
  ~ (49 <= 97 <= 57) /\ 97 <> 116 /\
  onQuery (CharEvent 97) (ClipDrawMatchView_new stillClock) =
  (Inherited, ClipDrawMatchView_new stillClock).
Proof.
  assert (Hd : ~ (49 <= 97 <= 57)) by lia.
  assert (Ht : 97 <> 116) by lia.
  split; [exact Hd|]. split; [exact Ht|].
  apply (onQuery_other_char_unchanged 97 (ClipDrawMatchView_new stillClock) Hd Ht).
Defined.

(* ================================================================= *)
(** ** More on the passes and the frame *)

(** The entries of the two passes depend on the canvas through its device
    size, the record in force and the number of saved records only. *)
Lemma clippedCalls_logged geom offset useAA calls c :
  clippedCalls geom offset useAA (logged calls c) =
  clippedCalls geom offset useAA c.
Proof. reflexivity. Qed.

Lemma directCalls_logged geom offset useAA calls c :
  directCalls geom offset useAA (logged calls c) =
  directCalls geom offset useAA c.
Proof. reflexivity. Qed.

Lemma clipElements_ops geom offset useAA :
  exists e rest,
    clipElements geom offset useAA = e :: rest /\
    ceOp e = kReplace_Op /\
    Forall (fun e' => ceOp e' = kIntersect_Op) rest.
Proof.
  unfold clipElements. destruct (isCompound geom);
    eexists; eexists; (split; [reflexivity|]); split; try reflexivity;
    repeat constructor.
Qed.

(** X1.  The clipped pass starts its clip afresh: the clip under which the
    red rectangle is drawn begins with a replace and goes on with intersects
    only, and neither it nor the rectangle depends on the clip in force, on
    the saved records or on the log of the canvas the pass is given. *)
Theorem clipped_pass_ignores_incoming_clip :
  forall (offset : SkPoint) (geom : Geometry) (useAA : bool)
         (size : Z * Z) (matrix : list SkScalar) (clip : list ClipElement)
         (saved : list MCRec) (log : list CanvasCall),
    drawsOf (newCalls (draw_clipped_geom offset geom useAA)
               (mkCanvas size (mkMCRec matrix clip) saved log)) =
    drawsOf (newCalls (draw_clipped_geom offset geom useAA)
               (mkCanvas size (mkMCRec matrix []) [] [])) /\
    exists e rest,
      drawsOf (newCalls (draw_clipped_geom offset geom useAA)
                 (mkCanvas size (mkMCRec matrix clip) saved log)) =
        [(mkMCRec matrix (e :: rest),
          RectShape (Rect.MakeWH (SkIntToScalar (fst size))
                                 (SkIntToScalar (snd size))), redPaint)] /\
      ceOp e = kReplace_Op /\
      Forall (fun e' => ceOp e' = kIntersect_Op) rest.
Proof.
  intros offset geom useAA size matrix clip saved log.
  rewrite !newCalls_draw_clipped_geom, !drawsOf_clippedCalls.
  split; [reflexivity|].
  destruct (clipElements_ops geom offset useAA) as (e & rest & He & Hop & Hrest).
  exists e, rest. rewrite He. repeat split; assumption.
Qed.

(** X2.  A frame leaves the canvas ready for the same frame: drawn again at
    the same time on the canvas the first frame left, it logs the very calls
    the first one logged, so that the log after two frames is the log before
    them followed by those calls twice. *)
Theorem consecutive_frames_identical :
  forall (v : ClipDrawMatchView) (now : SkMSec) (c : SkCanvas),
    let frame := onDrawContent v now in
    newCalls frame (exec frame c) = newCalls frame c /\
    fCalls (exec frame (exec frame c)) =
      fCalls c ++ newCalls frame c ++ newCalls frame c.
Proof.
  intros v now c frame. subst frame.
  assert (Hsame : newCalls (onDrawContent v now) (exec (onDrawContent v now) c) =
                  newCalls (onDrawContent v now) c).
  { rewrite exec_onDrawContent. rewrite !newCalls_onDrawContent.
    rewrite !newCalls_drawGeometry. reflexivity. }
  split; [exact Hsame|].
  rewrite (exec_onDrawContent v now (exec (onDrawContent v now) c)).
  fold (newCalls (onDrawContent v now) (exec (onDrawContent v now) c)).
  rewrite <- newCalls_onDrawContent, Hsame.
  rewrite exec_onDrawContent at 1. rewrite <- newCalls_onDrawContent.
  unfold logged; cbn [fCalls]. now rewrite app_assoc.
Qed.

(** X3.  Pressing 't' swaps the two passes and nothing else: the draws that
    [drawGeometry] makes after the key press are the draws it made before, in
    the opposite order. *)
Theorem toggle_swaps_passes :
  forall (v : ClipDrawMatchView) (offset : SkPoint) (useAA : bool) (c : SkCanvas),
    let v' := snd (onQuery (CharEvent 116) v) in
    drawsOf (newCalls (drawGeometry v' offset useAA) c) =
    rev (drawsOf (newCalls (drawGeometry v offset useAA) c)).
Proof.
  intros v offset useAA c v'. subst v'.
  rewrite !newCalls_drawGeometry. cbn [onQuery snd setClipFirst fGeom fClipFirst].
  destruct (fClipFirst v); cbn [negb];
    rewrite !drawsOf_app, drawsOf_clippedCalls; reflexivity.
Qed.

(* ================================================================= *)
(** ** More on the key presses *)

Lemma onQuery_other uni v :
  ~ (49 <= uni <= 57) -> uni <> 116 ->
  onQuery (CharEvent uni) v = (Inherited, v).
Proof.
  intros Hdigit Ht. destruct uni as [|p|p]; try reflexivity.
  do 7 (try (destruct p as [p|p|]; try reflexivity)); exfalso; lia.
Qed.

Lemma onQuery_recognised uni v :
  49 <= uni <= 57 \/ uni = 116 ->
  fst (onQuery (CharEvent uni) v) = Invalidated.
Proof.
  intros H.
  assert (Hcases : uni = 49 \/ uni = 50 \/ uni = 51 \/ uni = 52 \/ uni = 53 \/
                   uni = 54 \/ uni = 55 \/ uni = 56 \/ uni = 57 \/ uni = 116)
    by lia.
  repeat (destruct Hcases as [-> | Hcases]); try subst uni; reflexivity.
Qed.

Lemma recognised_dec uni :
  {49 <= uni <= 57 \/ uni = 116} + {~ (49 <= uni <= 57) /\ uni <> 116}.
Proof.
  destruct (Z_le_dec 49 uni), (Z_le_dec uni 57), (Z.eq_dec uni 116);
    (left; lia) || (right; lia).
Qed.

(** X4.  [onQuery] asks for a redraw exactly when the event is one of the
    characters '1'..'9' and 't'; it answers with the title exactly for the
    title query; and whenever it does not ask for a redraw it leaves the view
    as it was. *)
Theorem onQuery_invalidates_iff_recognised :
  forall (evt : SkEvent) (v : ClipDrawMatchView),
    (fst (onQuery evt v) = Invalidated <->
     exists uni, evt = CharEvent uni /\ (49 <= uni <= 57 \/ uni = 116)) /\
    (fst (onQuery evt v) = TitleAnswered "ClipDrawMatch" <-> evt = TitleEvent) /\
    (fst (onQuery evt v) <> Invalidated -> snd (onQuery evt v) = v).
Proof.
  intros evt v. destruct evt as [|uni|].
  - cbn. repeat split; try discriminate; try reflexivity.
    intros (uni & H & _). discriminate H.
  - destruct (recognised_dec uni) as [Hr|[Hd Ht]].
    + rewrite (onQuery_recognised uni v Hr). repeat split.
      * intros _. exists uni. auto.
      * discriminate.
      * discriminate.
      * intros H. now contradiction H.
    + rewrite (onQuery_other uni v Hd Ht). cbn. repeat split; try discriminate.
      intros (uni' & H & Hr). injection H as <-. lia.
  - cbn. repeat split; try discriminate.
    intros (uni & H & _). discriminate H.
Qed.

(** X5.  The keys '1'..'9' and the nine geometry kinds correspond one to one:
    every kind is selected by some key of '1'..'9', whatever the view, and by
    no other key of them. *)
Theorem every_kind_has_one_key :
  forall (geom : Geometry),
  exists uni : Z,
    49 <= uni <= 57 /\
    (forall v : ClipDrawMatchView,
        onQuery (CharEvent uni) v = (Invalidated, setGeom geom v)) /\
    (forall (uni' : Z) (v : ClipDrawMatchView),
        49 <= uni' <= 57 ->
        fGeom (snd (onQuery (CharEvent uni') v)) = geom -> uni' = uni).
Proof.
  intros geom.
  assert (Hcases : forall uni', 49 <= uni' <= 57 ->
            uni' = 49 \/ uni' = 50 \/ uni' = 51 \/ uni' = 52 \/ uni' = 53 \/
            uni' = 54 \/ uni' = 55 \/ uni' = 56 \/ uni' = 57) by (intros; lia).
  destruct geom;
    [exists 49|exists 50|exists 51|exists 52|exists 53|exists 54|exists 55|
     exists 56|exists 57];
    (split; [lia|]); (split; [reflexivity|]);
    intros uni' v Hr Hg; specialize (Hcases uni' Hr);
    repeat (destruct Hcases as [-> | Hcases]); try subst uni';
    try reflexivity; cbn in Hg; discriminate Hg.
Qed.

(** X6.  Of two selections in a row the later one wins, and a selection and
    the draw-order toggle can be made in either order with the same result. *)
Theorem selection_overrides_and_commutes_with_toggle :
  forall (v : ClipDrawMatchView) (u1 u2 : Z),
    49 <= u1 <= 57 -> 49 <= u2 <= 57 ->
    snd (onQuery (CharEvent u2) (snd (onQuery (CharEvent u1) v))) =
      snd (onQuery (CharEvent u2) v) /\
    snd (onQuery (CharEvent 116) (snd (onQuery (CharEvent u1) v))) =
      snd (onQuery (CharEvent u1) (snd (onQuery (CharEvent 116) v))).
Proof.
  intros v u1 u2 H1 H2.
  assert (C1 : u1 = 49 \/ u1 = 50 \/ u1 = 51 \/ u1 = 52 \/ u1 = 53 \/
               u1 = 54 \/ u1 = 55 \/ u1 = 56 \/ u1 = 57) by lia.
  assert (C2 : u2 = 49 \/ u2 = 50 \/ u2 = 51 \/ u2 = 52 \/ u2 = 53 \/
               u2 = 54 \/ u2 = 55 \/ u2 = 56 \/ u2 = 57) by lia.
  split.
  - repeat (destruct C2 as [-> | C2]); try subst u2;
      repeat (destruct C1 as [-> | C1]); try subst u1; reflexivity.
  - repeat (destruct C1 as [-> | C1]); try subst u1; reflexivity.
Qed.

(** X7.  Every combination of a geometry kind and a draw order can be
    reached from every view with one selection, followed by 't' when the
    draw order is to change; the animation is carried along unchanged. *)
Theorem every_state_reachable :
  forall (v : ClipDrawMatchView) (geom : Geometry) (clipFirst : bool),
  exists uni : Z,
    49 <= uni <= 57 /\
    let v1 := snd (onQuery (CharEvent uni) v) in
    (if Bool.eqb (fClipFirst v) clipFirst
     then v1
     else snd (onQuery (CharEvent 116) v1)) =
    mkView (fTrans v) geom clipFirst.
Proof.
  intros [trans g b] geom clipFirst.
  destruct geom;
    [exists 49|exists 50|exists 51|exists 52|exists 53|exists 54|exists 55|
     exists 56|exists 57];
    (split; [lia|]); destruct b, clipFirst; reflexivity.
Qed.

Lemma onQuery_keeps_fTrans evt v : fTrans (snd (onQuery evt v)) = fTrans v.
Proof.
  destruct evt as [|uni|]; try reflexivity.
  destruct (recognised_dec uni) as [Hr|[Hd Ht]].
  - assert (Hcases : uni = 49 \/ uni = 50 \/ uni = 51 \/ uni = 52 \/ uni = 53 \/
                     uni = 54 \/ uni = 55 \/ uni = 56 \/ uni = 57 \/ uni = 116)
      by lia.
    repeat (destruct Hcases as [-> | Hcases]); try subst uni; reflexivity.
  - now rewrite onQuery_other.
Qed.

(** X8.  No event changes the animation: after any event the view has the
    interpolator it had, and so the same offset at every time. *)
Theorem onQuery_keeps_animation :
  forall (evt : SkEvent) (v : ClipDrawMatchView),
    fTrans (snd (onQuery evt v)) = fTrans v /\
    forall t : SkMSec, offsetAt (snd (onQuery evt v)) t = offsetAt v t.
Proof.
  intros evt v. split; [apply onQuery_keeps_fTrans|].
  intros t. unfold offsetAt. now rewrite onQuery_keeps_fTrans.
Qed.

Lemma selection_overrides_and_commutes_with_toggle_witness :
  49 <= 50 <= 57 /\ 49 <= 56 <= 57 /\
  snd (onQuery (CharEvent 56)
         (snd (onQuery (CharEvent 50) (ClipDrawMatchView_new stillClock)))) =
  snd (onQuery (CharEvent 56) (ClipDrawMatchView_new stillClock)).
Proof.
  assert (H1 : 49 <= 50 <= 57) by lia.
  assert (H2 : 49 <= 56 <= 57) by lia.
  split; [exact H1|]. split; [exact H2|].
  apply (selection_overrides_and_commutes_with_toggle
           (ClipDrawMatchView_new stillClock) 50 56 H1 H2).
Defined.

(* ================================================================= *)
(** ** More on the animated offset *)

(** The key frames the constructor sets when no key time wraps. *)
Lemma new_view_frames_any_clock (GetMSecs : nat -> SkMSec) :
  (forall k, (k < 5)%nat -> 0 <= GetMSecs k /\ GetMSecs k + 5000 < 2 ^ 32) ->
  fTrans (ClipDrawMatchView_new GetMSecs) =
  mkInterpolator 2 999
    [mkTimeCode (GetMSecs 0%nat + 1000) [zero; zero];
     mkTimeCode (GetMSecs 1%nat + 2000) [zero; one];
     mkTimeCode (GetMSecs 2%nat + 3000) [one; one];
     mkTimeCode (GetMSecs 3%nat + 4000) [one; zero];
     mkTimeCode (GetMSecs 4%nat + 5000) [zero; zero]].
Proof.
  intros Hclock.
  pose proof (Hclock 0%nat ltac:(lia)). pose proof (Hclock 1%nat ltac:(lia)).
  pose proof (Hclock 2%nat ltac:(lia)). pose proof (Hclock 3%nat ltac:(lia)).
  pose proof (Hclock 4%nat ltac:(lia)).
  unfold ClipDrawMatchView_new, Interpolator.setKeyFrame,
    Interpolator.setRepeatCount, Interpolator.make.
  cbn [fTrans fElemCount fRepeat fFrames store repeat firstn].
  rewrite !msecWrap_small by lia.
  reflexivity.
Qed.

(** X9.  When the clock does not run backwards over the five readings of the
    constructor and no key time wraps, the five key frames are set in order of time,
    each at least 1000 after the one before, with the values (0,0), (0,1),
    (1,1), (1,0), (0,0), to be repeated 999 times. *)
Theorem key_frames_in_time_order :
  forall (GetMSecs : nat -> SkMSec),
    (forall i j, (i <= j)%nat -> (j < 5)%nat -> GetMSecs i <= GetMSecs j) ->
    0 <= GetMSecs 0%nat -> GetMSecs 4%nat + 5000 < 2 ^ 32 ->
    let it := fTrans (ClipDrawMatchView_new GetMSecs) in
    let times := map tcTime (fFrames it) in
    times = [GetMSecs 0%nat + 1000; GetMSecs 1%nat + 2000; GetMSecs 2%nat + 3000;
             GetMSecs 3%nat + 4000; GetMSecs 4%nat + 5000] /\
    (forall i, (i < 4)%nat -> nth i times 0 + 1000 <= nth (S i) times 0) /\
    map (fun f => pointOf (tcValues f)) (fFrames it) =
      [keyValue 0; keyValue 1; keyValue 2; keyValue 3; keyValue 4] /\
    fRepeat it = 999.
Proof.
  intros GetMSecs Hmono H0 Hmax it times. subst times it.
  assert (Hclock : forall k, (k < 5)%nat ->
                     0 <= GetMSecs k /\ GetMSecs k + 5000 < 2 ^ 32).
  { intros k Hk.
    pose proof (Hmono 0%nat k ltac:(lia) ltac:(lia)).
    pose proof (Hmono k 4%nat ltac:(lia) ltac:(lia)).
    lia. }
  rewrite new_view_frames_any_clock by exact Hclock.
  cbn [fFrames fRepeat map tcTime tcValues].
  split; [reflexivity|]. split; [|split; reflexivity].
  intros i Hi.
  destruct i as [|[|[|[|i]]]]; [| | | |lia]; cbn [nth].
  - pose proof (Hmono 0%nat 1%nat ltac:(lia) ltac:(lia)). lia.
  - pose proof (Hmono 1%nat 2%nat ltac:(lia) ltac:(lia)). lia.
  - pose proof (Hmono 2%nat 3%nat ltac:(lia) ltac:(lia)). lia.
  - pose proof (Hmono 3%nat 4%nat ltac:(lia) ltac:(lia)). lia.
Qed.

Lemma key_frames_in_time_order_witness :
  (forall i j, (i <= j)%nat -> (j < 5)%nat -> tickingClock i <= tickingClock j) /\
  0 <= tickingClock 0%nat /\ tickingClock 4%nat + 5000 < 2 ^ 32 /\
  map tcTime (fFrames (fTrans (ClipDrawMatchView_new tickingClock))) =
    [tickingClock 0%nat + 1000; tickingClock 1%nat + 2000;
     tickingClock 2%nat + 3000; tickingClock 3%nat + 4000;
     tickingClock 4%nat + 5000].
Proof.
  assert (Hmono : forall i j, (i <= j)%nat -> (j < 5)%nat ->
                           tickingClock i <= tickingClock j).
  { intros i j Hij Hj. unfold tickingClock.
    destruct i as [|[|[|[|[|i]]]]]; destruct j as [|[|[|[|[|j]]]]]; lia. }
  assert (H0 : 0 <= tickingClock 0%nat) by (cbn; lia).
  assert (Hmax : tickingClock 4%nat + 5000 < 2 ^ 32) by (vm_compute; reflexivity).
  split; [exact Hmono|]. split; [exact H0|]. split; [exact Hmax|].
  apply (key_frames_in_time_order tickingClock Hmono H0 Hmax).
Defined.

(** While the repetitions last, the value repeats with the time between the
    first and the last key frame as its period. *)
Lemma timeToValues_periodic (it : SkInterpolator) first rest (t : SkMSec) :
  fFrames it = first :: rest ->
  let start := tcTime first in
  let total := tcTime (last rest first) - start in
  0 < total -> start <= t -> t + total < start + fRepeat it * total ->
  Interpolator.timeToValues it (t + total) = Interpolator.timeToValues it t.
Proof.
  intros Hf start total Htotal Hlo Hhi.
  unfold Interpolator.timeToValues. rewrite Hf.
  fold start. fold total.
  destruct (Z.ltb_spec (t + total) start); [lia|].
  destruct (Z.ltb_spec t start); [lia|].
  destruct (Z.leb_spec (fRepeat it * total) (t + total - start)); [lia|].
  destruct (Z.leb_spec (fRepeat it * total) (t - start)); [lia|].
  replace (t + total - start) with (t - start + 1 * total) by lia.
  now rewrite Z_mod_plus_full.
Qed.

(** X10.  Whatever the clock reads while the constructor runs, as long as it
    does not run backwards and no key time wraps, the offset repeats with the
    time between the first and the last key frame as its period, which is
    4000 plus what the clock advanced between the first and the last reading:
    the offset at [t] plus the period is the offset at [t], for every [t] from
    the first key frame on that leaves the 999 repetitions unfinished. *)
Theorem offset_period_follows_clock :
  forall (GetMSecs : nat -> SkMSec),
    (forall k, (k < 5)%nat -> 0 <= GetMSecs k /\ GetMSecs k + 5000 < 2 ^ 32) ->
    GetMSecs 0%nat <= GetMSecs 4%nat ->
    let v := ClipDrawMatchView_new GetMSecs in
    let start := GetMSecs 0%nat + 1000 in
    let period := 4000 + (GetMSecs 4%nat - GetMSecs 0%nat) in
    forall t : SkMSec,
      start <= t -> t + period < start + 999 * period ->
      offsetAt v (t + period) = offsetAt v t.
Proof.
  intros GetMSecs Hclock Hdrift v start period t Hlo Hhi.
  unfold offsetAt. f_equal.
  - f_equal. subst v. rewrite new_view_frames_any_clock by exact Hclock.
    replace period with
      (tcTime (last [mkTimeCode (GetMSecs 1%nat + 2000) [zero; one];
                     mkTimeCode (GetMSecs 2%nat + 3000) [one; one];
                     mkTimeCode (GetMSecs 3%nat + 4000) [one; zero];
                     mkTimeCode (GetMSecs 4%nat + 5000) [zero; zero]]
                    (mkTimeCode (GetMSecs 0%nat + 1000) [zero; zero])) -
       tcTime (mkTimeCode (GetMSecs 0%nat + 1000) [zero; zero]))
      by (cbn [last tcTime]; subst period; lia).
    apply timeToValues_periodic with (rest :=
      [mkTimeCode (GetMSecs 1%nat + 2000) [zero; one];
       mkTimeCode (GetMSecs 2%nat + 3000) [one; one];
       mkTimeCode (GetMSecs 3%nat + 4000) [one; zero];
       mkTimeCode (GetMSecs 4%nat + 5000) [zero; zero]]);
      cbn [fFrames fRepeat last tcTime]; try reflexivity; subst period start; lia.
  - f_equal. subst v. rewrite new_view_frames_any_clock by exact Hclock.
    replace period with
      (tcTime (last [mkTimeCode (GetMSecs 1%nat + 2000) [zero; one];
                     mkTimeCode (GetMSecs 2%nat + 3000) [one; one];
                     mkTimeCode (GetMSecs 3%nat + 4000) [one; zero];
                     mkTimeCode (GetMSecs 4%nat + 5000) [zero; zero]]
                    (mkTimeCode (GetMSecs 0%nat + 1000) [zero; zero])) -
       tcTime (mkTimeCode (GetMSecs 0%nat + 1000) [zero; zero]))
      by (cbn [last tcTime]; subst period; lia).
    apply timeToValues_periodic with (rest :=
      [mkTimeCode (GetMSecs 1%nat + 2000) [zero; one];
       mkTimeCode (GetMSecs 2%nat + 3000) [one; one];
       mkTimeCode (GetMSecs 3%nat + 4000) [one; zero];
       mkTimeCode (GetMSecs 4%nat + 5000) [zero; zero]]);
      cbn [fFrames fRepeat last tcTime]; try reflexivity; subst period start; lia.
Qed.

Lemma offset_period_follows_clock_witness :
  (forall k, (k < 5)%nat ->
     0 <= tickingClock k /\ tickingClock k + 5000 < 2 ^ 32) /\
  tickingClock 0%nat <= tickingClock 4%nat /\
  offsetAt (ClipDrawMatchView_new tickingClock) (1500 + 4001) =
  offsetAt (ClipDrawMatchView_new tickingClock) 1500.
Proof.
  assert (Hclock : forall k, (k < 5)%nat ->
            0 <= tickingClock k /\ tickingClock k + 5000 < 2 ^ 32).
  { intros k Hk. unfold tickingClock.
    assert (H32 : 2 ^ 32 = 4294967296) by reflexivity. rewrite H32.
    destruct k as [|[|[|[|[|k]]]]]; lia. }
  assert (Hdrift : tickingClock 0%nat <= tickingClock 4%nat) by (cbn; lia).
  split; [exact Hclock|]. split; [exact Hdrift|].
  apply (offset_period_follows_clock tickingClock Hclock Hdrift 1500);
    cbn; lia.
Defined.

Lemma upto_forallb (P : Z -> bool) (n : nat) :
  forallb P (upto n) = true ->
  forall k, 0 <= k < Z.of_nat n -> P k = true.
Proof.
  intros H k Hk. rewrite forallb_forall in H. apply H.
  unfold upto. apply in_map_iff. exists (Z.to_nat k). split; [lia|].
  apply in_seq. lia.
Qed.

Lemma timeToValues_before start t :
  t < start ->
  Interpolator.timeToValues (mkInterpolator 2 999 (keyFramesFrom start)) t =
  [zero; zero].
Proof.
  intros Ht. unfold Interpolator.timeToValues, keyFramesFrom.
  cbn [fFrames tcTime tcValues].
  destruct (Z.ltb_spec t start) as [_|Hge]; [reflexivity|lia].
Qed.

(** With a still clock, the offset at any time is that of the first key frame
    or lies on one of the four segments, at a whole number of thousandths. *)
Lemma offsetAt_cases v start t :
  fTrans v = mkInterpolator 2 999 (keyFramesFrom start) ->
  offsetAt v t = keyValue 0 \/
  exists (i : nat) (k : Z),
    (i < 4)%nat /\ 0 <= k < 1000 /\
    offsetAt v t = interpPoint (keyValue i) (keyValue (S i)) (fraction k 1000).
Proof.
  intros Hv.
  destruct (Z_lt_dec t start) as [Hbefore|Hfrom].
  { left. unfold offsetAt. now rewrite Hv, timeToValues_before. }
  destruct (Z_le_dec (start + 999 * 4000) t) as [Hover|Hrun].
  { left. now rewrite (offsetAt_over v start Hv). }
  right.
  set (p := t - start).
  set (n := p / 4000). set (r := p mod 4000).
  set (i := Z.to_nat (r / 1000)). set (k := r mod 1000).
  assert (Hp : p = 4000 * n + r) by (apply Z.div_mod; lia).
  assert (Hr : 0 <= r < 4000) by (apply Z.mod_pos_bound; lia).
  assert (Hrk : r = 1000 * (r / 1000) + k) by (apply Z.div_mod; lia).
  assert (Hk : 0 <= k < 1000) by (apply Z.mod_pos_bound; lia).
  assert (Hq : 0 <= r / 1000 < 4)
    by (split; [apply Z.div_pos; lia | apply Z.div_lt_upper_bound; lia]).
  assert (Hn : 0 <= n < 999)
    by (split; [apply Z.div_pos; subst p; lia
               | apply Z.div_lt_upper_bound; subst p; lia]).
  exists i, k. split; [subst i; lia|]. split; [exact Hk|].
  replace t with (start + 4000 * n + 1000 * Z.of_nat i + k)
    by (subst i; rewrite Z2Nat.id by lia; subst p; lia).
  apply (offsetAt_segment v start Hv); [exact Hn | subst i; lia | exact Hk].
Qed.

(** A property of points that holds at the first key value and along the
    four segments holds of the offset at every time. *)
Lemma offsetAt_all (P : SkPoint -> bool) v start :
  fTrans v = mkInterpolator 2 999 (keyFramesFrom start) ->
  P (keyValue 0) = true ->
  forallb (fun i =>
    forallb (fun k =>
      P (interpPoint (keyValue i) (keyValue (S i)) (fraction k 1000)))
      (upto 1000)) (seq 0 4) = true ->
  forall t, P (offsetAt v t) = true.
Proof.
  intros Hv H0 Hall t.
  destruct (offsetAt_cases v start t Hv) as [-> | (i & k & Hi & Hk & ->)].
  - exact H0.
  - rewrite forallb_forall in Hall.
    assert (Hin : In i (seq 0 4)) by (apply in_seq; lia).
    specialize (Hall i Hin).
    now apply (upto_forallb _ 1000 Hall k).
Qed.

(** X11.  With a still clock, the offset never leaves the unit square: at
    every time, before, during and after the 999 repetitions, both of its
    coordinates lie between 0 and 1. *)
Theorem offset_stays_in_unit_square :
  forall (GetMSecs : nat -> SkMSec) (now : SkMSec),
    (forall k, (k < 5)%nat -> GetMSecs k = now) ->
    0 <= now -> now + 5000 < 2 ^ 32 ->
    forall t : SkMSec,
      inUnit (fX (offsetAt (ClipDrawMatchView_new GetMSecs) t)) = true /\
      inUnit (fY (offsetAt (ClipDrawMatchView_new GetMSecs) t)) = true.
Proof.
  intros GetMSecs now Hclock H0 Hmax t.
  apply andb_prop.
  apply (offsetAt_all (fun p => inUnit (fX p) && inUnit (fY p))
           (ClipDrawMatchView_new GetMSecs) (now + 1000)).
  - now apply new_view_frames.
  - reflexivity.
  - vm_compute; reflexivity.
Qed.

Lemma offset_stays_in_unit_square_witness :
  (forall k, (k < 5)%nat -> stillClock k = 0) /\
  0 <= 0 /\ 0 + 5000 < 2 ^ 32 /\
  inUnit (fX (offsetAt (ClipDrawMatchView_new stillClock) 2250)) = true /\
  inUnit (fY (offsetAt (ClipDrawMatchView_new stillClock) 2250)) = true.
Proof.
  assert (Hclock : forall k, (k < 5)%nat -> stillClock k = 0)
    by (intros k _; reflexivity).
  assert (H0 : 0 <= 0) by lia.
  assert (Hmax : 0 + 5000 < 2 ^ 32) by (vm_compute; reflexivity).
  split; [exact Hclock|]. split; [exact H0|]. split; [exact Hmax|].
  apply (offset_stays_in_unit_square stillClock 0 Hclock H0 Hmax 2250).
Defined.

(** X12.  With a still clock, the geometry of every kind stays within
    [100.5,100.5]..[300.5,300.5] at every time: the bounds of the rectangle,
    of the rounded rectangle, of the circle and of the two paths at the
    animated offset never pass the basic rect by more than one unit. *)
Theorem animated_geometry_stays_in_square :
  forall (GetMSecs : nat -> SkMSec) (now : SkMSec),
    (forall k, (k < 5)%nat -> GetMSecs k = now) ->
    0 <= now -> now + 5000 < 2 ^ 32 ->
    forall (geom : Geometry) (t : SkMSec),
      rectWithin kMin (dyadic 601 (-1))
        (shapeBounds
           (geometryShape geom (offsetAt (ClipDrawMatchView_new GetMSecs) t))) =
      true.
Proof.
  intros GetMSecs now Hclock H0 Hmax geom t.
  pose (allKinds := [kRect_Geometry; kRRect_Geometry; kCircle_Geometry;
                     kConvexPath_Geometry; kConcavePath_Geometry;
                     kRectAndRect_Geometry; kRectAndRRect_Geometry;
                     kRectAndConvex_Geometry; kRectAndConcave_Geometry]).
  assert (Hall :
    forallb (fun g => rectWithin kMin (dyadic 601 (-1))
                        (shapeBounds (geometryShape g
                           (offsetAt (ClipDrawMatchView_new GetMSecs) t))))
            allKinds = true).
  { apply (offsetAt_all
             (fun p => forallb (fun g => rectWithin kMin (dyadic 601 (-1))
                                  (shapeBounds (geometryShape g p))) allKinds)
             (ClipDrawMatchView_new GetMSecs) (now + 1000)).
    - now apply new_view_frames.
    - vm_compute; reflexivity.
    - vm_compute; reflexivity. }
  rewrite forallb_forall in Hall. apply Hall.
  subst allKinds. destruct geom; cbn; tauto.
Qed.

Lemma animated_geometry_stays_in_square_witness :
  (forall k, (k < 5)%nat -> stillClock k = 0) /\
  0 <= 0 /\ 0 + 5000 < 2 ^ 32 /\
  rectWithin kMin (dyadic 601 (-1))
    (shapeBounds
       (geometryShape kConcavePath_Geometry
          (offsetAt (ClipDrawMatchView_new stillClock) 3333))) = true.
Proof.
  assert (Hclock : forall k, (k < 5)%nat -> stillClock k = 0)
    by (intros k _; reflexivity).
  assert (H0 : 0 <= 0) by lia.
  assert (Hmax : 0 + 5000 < 2 ^ 32) by (vm_compute; reflexivity).
  split; [exact Hclock|]. split; [exact H0|]. split; [exact Hmax|].
  apply (animated_geometry_stays_in_square stillClock 0 Hclock H0 Hmax
           kConcavePath_Geometry 3333).
Defined.

(* ================================================================= *)
(** ** The install script *)

Section InstallScript.

Import InstallApp.
Local Open Scope string_scope.

Lemma adbOf_app (l1 l2 : list Effect) :
  adbOf (l1 ++ l2)%list = (adbOf l1 ++ adbOf l2)%list.
Proof. unfold adbOf. apply filter_app. Qed.

Lemma adbOf_print_usage : adbOf print_usage = [].
Proof. reflexivity. Qed.

(** The loop over the arguments only prints; it ends with exit code 0 or 1,
    or with [forceRemoval] set when "-f" was among the arguments and as it
    was otherwise. *)
Lemma loop_spec (args : list string) :
  forall (forceRemoval app : string),
    adbOf (fst (loop args forceRemoval app)) = [] /\
    match snd (loop args forceRemoval app) with
    | Break code => code = 0%Z \/ code = 1%Z
    | Done forceRemoval' _ =>
        forceRemoval' =
        if existsb (fun a => String.eqb a "-f") args then "true" else forceRemoval
    end.
Proof.
  induction args as [|arg rest IH]; intros forceRemoval app; cbn [loop existsb].
  - split; reflexivity.
  - destruct (String.eqb arg "-f") eqn:Ef; cbn [orb].
    { destruct (IH "true" app) as [Hadb Hend]. split; [exact Hadb|].
      destruct (snd (loop rest "true" app)); [exact Hend|].
      rewrite Hend. now destruct (existsb _ rest). }
    destruct (String.eqb arg "-h"); [split; [reflexivity | now left]|].
    destruct (String.eqb arg "-r").
    { destruct (IH forceRemoval app) as [Hadb Hend].
      destruct (loop rest forceRemoval app) as [out e]. split; assumption. }
    destruct (startsWithDash arg); [split; [reflexivity | now right]|].
    destruct (negb (String.eqb app EmptyString));
      [split; [reflexivity | now right]|].
    apply IH.
Qed.


(** An [exit] in the loop is final: what follows the arguments read so far
    is never looked at. *)
Lemma loop_break_app (args rest : list string) :
  forall (forceRemoval app : string) (code : Z),
    snd (loop args forceRemoval app) = Break code ->
    loop (args ++ rest)%list forceRemoval app = loop args forceRemoval app.
Proof.
  induction args as [|arg args IH]; intros forceRemoval app code H.
  - discriminate H.
  - cbn [loop List.app] in *.
    destruct (String.eqb arg "-f"); [now apply IH with code|].
    destruct (String.eqb arg "-h"); [reflexivity|].
    destruct (String.eqb arg "-r").
    { destruct (loop args forceRemoval app) as [out e] eqn:El.
      cbn [snd] in H. rewrite (IH forceRemoval app code) by (rewrite El; exact H).
      now rewrite El. }
    destruct (startsWithDash arg); [reflexivity|].
    destruct (negb (String.eqb app EmptyString)); [reflexivity|].
    now apply IH with code.
Qed.

(** X14.  The first argument that makes the script exit decides the run:
    when the script exits on its arguments, it does exactly the same, with
    the same output and the same exit code, whatever further arguments are
    added after them. *)
Theorem arguments_after_exit_ignored :
  forall (args rest : list string) (build arch dir : string) (code : Z),
    snd (main (mkEnv args build arch dir)) = Exit code ->
    main (mkEnv (args ++ rest)%list build arch dir) =
    main (mkEnv args build arch dir).
Proof.
  intros args rest build arch dir code H. unfold main in *.
  cbn [APP_ARGS BUILDTYPE ANDROID_ARCH SCRIPT_DIR] in *.
  destruct (loop args "false" EmptyString) as [out e] eqn:El.
  destruct e as [c|forceRemoval app].
  - rewrite (loop_break_app args rest "false" EmptyString c)
      by (rewrite El; reflexivity).
    now rewrite El.
  - destruct (String.eqb app EmptyString); discriminate H.
Qed.

Lemma arguments_after_exit_ignored_witness :
  snd (main (mkEnv ["-f"; "-h"] "Release" "arm" "/bin")) = Exit 0 /\
  main (mkEnv (["-f"; "-h"] ++ ["VisualBench"])%list "Release" "arm" "/bin") =
  main (mkEnv ["-f"; "-h"] "Release" "arm" "/bin").
Proof.
  assert (H : snd (main (mkEnv ["-f"; "-h"] "Release" "arm" "/bin")) = Exit 0)
    by reflexivity.
  split; [exact H|].
  apply (arguments_after_exit_ignored ["-f"; "-h"] ["VisualBench"]
           "Release" "arm" "/bin" 0 H).
Defined.

(** Dropping the "-r" arguments changes nothing in how the loop ends. *)
Lemma loop_without_r (args : list string) :
  forall (forceRemoval app : string),
    snd (loop (filter (fun a => negb (String.eqb a "-r")) args)
           forceRemoval app) =
    snd (loop args forceRemoval app).
Proof.
  induction args as [|arg args IH]; intros forceRemoval app; [reflexivity|].
  cbn [filter].
  destruct (String.eqb_spec arg "-r") as [->|Hr]; cbn [negb].
  - cbn [loop]. change (String.eqb "-r" "-f") with false.
    change (String.eqb "-r" "-h") with false.
    change (String.eqb "-r" "-r") with true. cbv iota.
    rewrite IH. now destruct (loop args forceRemoval app).
  - cbn [loop].
    destruct (String.eqb arg "-f"); [apply IH|].
    destruct (String.eqb arg "-h"); [reflexivity|].
    destruct (String.eqb_spec arg "-r") as [E|_]; [contradiction|].
    destruct (startsWithDash arg); [reflexivity|].
    destruct (negb (String.eqb app EmptyString)); [reflexivity|].
    apply IH.
Qed.

(** X15.  "-r" is a no-op as the script says: with every "-r" taken out of
    the arguments the script ends the same way and issues the same [adb]
    commands. *)
Theorem dash_r_is_a_no_op :
  forall (args : list string) (build arch dir : string),
    let without := filter (fun a => negb (String.eqb a "-r")) args in
    snd (main (mkEnv without build arch dir)) =
      snd (main (mkEnv args build arch dir)) /\
    adbOf (fst (main (mkEnv without build arch dir))) =
      adbOf (fst (main (mkEnv args build arch dir))).
Proof.
  intros args build arch dir without. subst without. unfold main.
  cbn [APP_ARGS BUILDTYPE ANDROID_ARCH SCRIPT_DIR].
  pose proof (loop_without_r args "false" EmptyString) as Hend.
  pose proof (loop_spec args "false" EmptyString) as [Hadb _].
  pose proof (loop_spec (filter (fun a => negb (String.eqb a "-r")) args)
                "false" EmptyString) as [Hadb' _].
  destruct (loop args "false" EmptyString) as [out e].
  destruct (loop (filter _ args) "false" EmptyString) as [out' e'].
  cbn [fst snd] in *. subst e'.
  destruct e as [code|forceRemoval app].
  - cbn [fst snd]. split; [reflexivity|congruence].
  - destruct (String.eqb app EmptyString); cbn [fst snd];
      (split; [reflexivity|]); rewrite !adbOf_app, Hadb, Hadb'; reflexivity.
Qed.















End InstallScript.
